(** * Event ingestion of api_smartcontract: a shallow embedding

    The development follows [api_smartcontract/tasks.py],
    [api_smartcontract/models.py] and [api_smartcontract/validators.py].

    - Python values that the ABI decoder hands to the task are the
      inductive [value]; a decoded-argument [dict] is a [gmap string value].
    - Python [str] is [string]: a sequence of code points below 256.
    - Exceptions are explicit: fallible code returns a [result].
    - The polling loop threads the database and its two counters through a
      small state-and-exception monad; [atomic] restores the database when
      its body raises, the counters being plain local variables.
    - The table of transactions is a [gmap] keyed by the hash; the table of
      events is the list of its rows.  A column accepts the values that
      Django documents for its field class.
    - What web3, the node and the clock answer is an input: an entry comes
      with the result of its decoding, an [observation] adds the wall clock
      and the block timestamp, a [node] answers the set-up and the queries.
    - Log messages are not modelled. *)

From Stdlib Require Import ZArith Lia Ascii String List.
From stdpp Require Import base option list strings pretty gmap sorting.

Local Open Scope string_scope.
Local Open Scope Z_scope.

(** ** Exceptions and results *)

Inductive exn : Type :=
  | AttributeError
  | TypeError
  | ValueError
  | InvalidOperation
  | ValidationError
  | DataError
  | IntegrityError
  | DecodeError
  | ConnectivityError.

Inductive result (A : Type) : Type :=
  | Ok (a : A)
  | Raise (e : exn).

Arguments Ok {A} a.
Arguments Raise {A} e.

Definition result_bind {A B} (r : result A) (k : A -> result B) : result B :=
  match r with
  | Ok a => k a
  | Raise e => Raise e
  end.

(** ** Python values *)

(** What the log decoder produces for an argument (and [None], which
    [dict.get] returns for a missing key). *)
Inductive value : Type :=
  | VNone
  | VBool (b : bool)
  | VInt (n : Z)
  | VStr (s : string)
  | VBytes (b : string).

Abbreviation args := (gmap string value).

(** [d.get(k)] *)
Definition dict_get (d : args) (k : string) : value :=
  match d !! k with
  | Some v => v
  | None => VNone
  end.

(** [d.get(k, default)] *)
Definition dict_get_default (d : args) (k : string) (default : value) : value :=
  match d !! k with
  | Some v => v
  | None => default
  end.

(** Truth value of a dict: non-empty. *)
Definition dict_truthy (d : args) : bool := negb (bool_decide (d = ∅)).

(** ** Strings *)

(** [c.lower()] on a code point below 256: the ASCII capitals and the
    Latin-1 capitals (0xC0..0xDE without the multiplication sign 0xD7). *)
Definition lower_char (c : ascii) : ascii :=
  let n := N_of_ascii c in
  if ((65 <=? n) && (n <=? 90))%N
     || ((192 <=? n) && (n <=? 222) && negb (n =? 215))%N
  then ascii_of_N (n + 32)
  else c.

(** [s.lower()] *)
Fixpoint str_lower (s : string) : string :=
  match s with
  | EmptyString => EmptyString
  | String c s' => String (lower_char c) (str_lower s')
  end.

(** [s.startswith(p)] *)
Fixpoint str_startswith (p s : string) : bool :=
  match p, s with
  | EmptyString, _ => true
  | String a p', String b s' => Ascii.eqb a b && str_startswith p' s'
  | String _ _, EmptyString => false
  end.

(** [needle in hay] for two [str]. *)
Fixpoint str_contains (needle hay : string) : bool :=
  str_startswith needle hay
  || match hay with
     | EmptyString => false
     | String _ hay' => str_contains needle hay'
     end.

(** ** The fraud heuristic: [detect_fraud] *)

(** The entry itself, as web3 returns it: [transactionHash] is the text
    that [.hex()] gives for it; [decoded] is what
    [event_interface.process_log] answers for this entry. *)
Record event_log : Type := {
  transactionHash : string;
  blockNumber : Z;
  logIndex : Z;
  decoded : result args;
}.

Definition fraud_threshold : Z := 10 ^ 24.

Definition suspicious_phrase : string := "phishing attempt".

(** [isinstance(v, int)], with the integer it denotes: [bool] is a subclass
    of [int], [True] being 1 and [False] 0. *)
Definition as_int (v : value) : option Z :=
  match v with
  | VInt n => Some n
  | VBool b => Some (Z.b2z b)
  | VNone | VStr _ | VBytes _ => None
  end.

(** Body of the first [try]: returns the new value of [is_fraudulent].
    [Decimal(amount)] of an [int] is that integer. *)
Definition high_amount_rule (decoded_args : args) (is_fraudulent : bool)
  : result bool :=
  let amount := dict_get decoded_args "amount" in
  match as_int amount with
  | Some n => Ok (if fraud_threshold <? n then true else is_fraudulent)
  | None => Ok is_fraudulent
  end.

(** [x in message.lower()] with [x] a [str]. *)
Definition lower_then_contains (message : value) : result bool :=
  match message with
  | VStr s => Ok (str_contains suspicious_phrase (str_lower s))
  | VBytes _ => Raise TypeError
  | VNone | VBool _ | VInt _ => Raise AttributeError
  end.

(** Body of the second [try]. *)
Definition suspicious_message_rule (decoded_args : args) (is_fraudulent : bool)
  : result bool :=
  let message := dict_get_default decoded_args "message" (VStr "") in
  result_bind (lower_then_contains message)
    (fun hit => Ok (if hit then true else is_fraudulent)).

(** [try: body  except Exception: log] around a rule. *)
Definition swallow (body : result bool) (is_fraudulent : bool) : bool :=
  match body with
  | Ok b => b
  | Raise _ => is_fraudulent
  end.

(** [tx_hash], the first thing computed, only serves the log messages. *)
Definition detect_fraud (event_name : string) (log : event_log)
    (decoded_args : args) : bool :=
  let is_fraudulent := false in
  let is_fraudulent :=
    if String.eqb event_name "TransactionSubmitted" && dict_truthy decoded_args
    then swallow (high_amount_rule decoded_args is_fraudulent) is_fraudulent
    else is_fraudulent in
  let is_fraudulent :=
    if String.eqb event_name "ContractEvent" && dict_truthy decoded_args
    then swallow (suspicious_message_rule decoded_args is_fraudulent) is_fraudulent
    else is_fraudulent in
  is_fraudulent.

(** ** Validators ([validators.py]) *)

Definition is_hex_digit (c : ascii) : bool :=
  let n := N_of_ascii c in
  (((48 <=? n) && (n <=? 57)) || ((97 <=? n) && (n <=? 102))
   || ((65 <=? n) && (n <=? 70)))%N.

(** [[a-fA-F0-9]{n}] at the head of [s]: what follows it, when it matches. *)
Fixpoint hex_run (n : nat) (s : string) : option string :=
  match n with
  | O => Some s
  | S n' =>
      match s with
      | String c s' => if is_hex_digit c then hex_run n' s' else None
      | EmptyString => None
      end
  end.

(** [$] of [re.match]: the end of the text, or just before a final newline. *)
Definition at_dollar (s : string) : bool :=
  match s with
  | EmptyString => true
  | String c EmptyString => (N_of_ascii c =? 10)%N
  | String _ (String _ _) => false
  end.

(** [re.match(r'^0x[a-fA-F0-9]{n}$', s)] *)
Definition re_match_0x_hex (n : nat) (s : string) : bool :=
  match s with
  | String c0 (String c1 rest) =>
      (N_of_ascii c0 =? 48)%N && (N_of_ascii c1 =? 120)%N
      && match hex_run n rest with
         | Some tail => at_dollar tail
         | None => false
         end
  | _ => false
  end.

Definition validate_blockchain_address (value : string) : result unit :=
  if negb (re_match_0x_hex 40 value) then Raise ValidationError else Ok tt.

Definition validate_transaction_hash (value : string) : result unit :=
  if negb (re_match_0x_hex 64 value) then Raise ValidationError else Ok tt.

Definition validate_block_number (value : Z) : result unit :=
  if value <? 0 then Raise ValidationError else Ok tt.

(** ** What the Python runtime answers

    Conversions of text that the task leaves to the interpreter and to the
    ORM.  They are parameters of the model; [None] stands for the call
    raising. *)
Record runtime : Type := {
  int_of_str : string -> option Z;      (* int(s), s a str *)
  int_of_bytes : string -> option Z;    (* int(b), b a bytes *)
  Decimal_of_str : string -> option Z;  (* Decimal(s), as a zero-scale column keeps it *)
  str_of_bytes : string -> string;      (* str(b), b a bytes *)
}.

(** ** The JSON payload: [json.dumps(decoded_args, default=str)]

    The text that [json.dumps] returns is kept in the [data] column; it is
    modelled by the JSON document it denotes, an object with one member per
    decoded argument. *)

Inductive json : Type :=
  | JNull
  | JBool (b : bool)
  | JNumber (n : Z)
  | JString (s : string).

(** The encoder on one value.  [None], [bool], [int] and [str] are encoded
    natively; only for another object does the encoder call [default],
    here [str], and encode what it returns. *)
Definition json_encode (R : runtime) (v : value) : json :=
  match v with
  | VNone => JNull
  | VBool b => JBool b
  | VInt n => JNumber n
  | VStr s => JString s
  | VBytes b => JString (str_of_bytes R b)
  end.

Definition json_dumps (R : runtime) (d : args) : gmap string json :=
  json_encode R <$> d.

(** [json.loads] on one JSON value. *)
Definition json_decode (j : json) : value :=
  match j with
  | JNull => VNone
  | JBool b => VBool b
  | JNumber n => VInt n
  | JString s => VStr s
  end.

Definition json_loads (o : gmap string json) : args :=
  json_decode <$> o.

(** [str(n)] for an [int]. *)
Definition str_of_int (n : Z) : string := pretty n.

(** ** The stored records ([models.py]) *)

Record Transaction : Type := {
  transaction_hash : string;
  block_number : Z;
  created_at : Z;
}.

Record ContractEvent : Type := {
  transaction_id : string;
  log_index : Z;
  event_name : string;
  contract_address : string;
  block_timestamp : Z;
  is_fraudulent : bool;
  data : gmap string json;
  event_from_address : option string;
  event_to_address : option string;
  event_amount : option Z;
  event_tx_hash_param : option string;
  event_sender_address : option string;
  event_message : option string;
  event_onchain_timestamp : option Z;
}.

(** The two tables.  [Transaction] has its hash as primary key;
    [ContractEvent] rows are kept in insertion order. *)
Record database : Type := {
  transactions : gmap string Transaction;
  events : list ContractEvent;
}.

(** The ranges of the integer and decimal columns, as Django documents them
    for every backend.  A backend that checks them (PostgreSQL) refuses a
    value outside; SQLite keeps longer texts and larger integers, and stores
    a decimal as a floating-point number.  The calls below follow the
    documented ranges; the invariants of the store proved further down use
    the validators of the task only, and hold with or without these
    checks. *)
Definition PositiveIntegerField_ok (n : Z) : bool :=
  (0 <=? n) && (n <=? 2147483647).

Definition PositiveBigIntegerField_ok (n : Z) : bool :=
  (0 <=? n) && (n <=? 9223372036854775807).

(** [DecimalField(max_digits=78, decimal_places=0)] *)
Definition DecimalField_ok (n : Z) : bool := Z.abs n <? 10 ^ 78.

(** [CharField(max_length=n)] *)
Definition varchar_ok (n : nat) (s : string) : bool :=
  Nat.leb (String.length s) n.

(** ** The state of one polling run *)

Record run_state : Type := {
  db : database;
  processed_count : Z;
  fraud_detected_count : Z;
}.

Definition M (A : Type) : Type := run_state -> result A * run_state.

Definition ret {A} (a : A) : M A := fun s => (Ok a, s).

Definition bind {A B} (m : M A) (k : A -> M B) : M B :=
  fun s =>
    match m s with
    | (Ok a, s') => k a s'
    | (Raise e, s') => (Raise e, s')
    end.

Definition lift {A} (r : result A) : M A := fun s => (r, s).

Notation "'let*' x ':=' m 'in' k" := (bind m (fun x => k))
  (at level 10, x pattern, m at level 100, k at level 200).

Notation "m ';;' k" := (bind m (fun _ => k))
  (at level 100, k at level 200, right associativity).

Definition set_db (s : run_state) (d : database) : run_state :=
  {| db := d;
     processed_count := processed_count s;
     fraud_detected_count := fraud_detected_count s |}.

(** [with db_transaction.atomic():] the writes of a body that raises are
    undone; the counters are local variables and keep their value. *)
Definition atomic {A} (body : M A) : M A :=
  fun s =>
    match body s with
    | (Ok a, s') => (Ok a, s')
    | (Raise e, s') => (Raise e, set_db s' (db s))
    end.

Definition incr_fraud_detected_count : M unit :=
  fun s =>
    (Ok tt, {| db := db s;
               processed_count := processed_count s;
               fraud_detected_count := fraud_detected_count s + 1 |}).

Definition incr_processed_count : M unit :=
  fun s =>
    (Ok tt, {| db := db s;
               processed_count := processed_count s + 1;
               fraud_detected_count := fraud_detected_count s |}).

(** ** The ORM calls *)

Definition put_transaction (t : Transaction) (d : database) : database :=
  {| transactions := <[transaction_hash t := t]> (transactions d);
     events := events d |}.

(** [Transaction.objects.get_or_create(transaction_hash=h,
    defaults={"block_number": b})]; [created_at] defaults to [now]. *)
Definition Transaction_get_or_create (tx_hash : string) (block_num : Z)
    (now : Z) : M (Transaction * bool) :=
  fun s =>
    match transactions (db s) !! tx_hash with
    | Some t => (Ok (t, false), s)
    | None =>
        if varchar_ok 66 tx_hash && PositiveIntegerField_ok block_num then
          let t := {| transaction_hash := tx_hash;
                      block_number := block_num;
                      created_at := now |} in
          (Ok (t, true), set_db s (put_transaction t (db s)))
        else (Raise DataError, s)
    end.

(** [transaction_obj.save()] *)
Definition Transaction_save (t : Transaction) : M unit :=
  fun s =>
    if PositiveIntegerField_ok (block_number t)
    then (Ok tt, set_db s (put_transaction t (db s)))
    else (Raise DataError, s).

Definition same_key (tx_hash : string) (idx : Z) (e : ContractEvent) : bool :=
  String.eqb (transaction_id e) tx_hash && (log_index e =? idx).

(** [ContractEvent.objects.filter(transaction=t, log_index=i).exists()] *)
Definition ContractEvent_exists (t : Transaction) (idx : Z) : M bool :=
  fun s => (Ok (existsb (same_key (transaction_hash t) idx) (events (db s))), s).

(** The keyword arguments collected in [event_data_for_model]. *)
Record event_data : Type := {
  kw_transaction : Transaction;
  kw_log_index : Z;
  kw_event_name : string;
  kw_contract_address : string;
  kw_block_timestamp : Z;
  kw_is_fraudulent : bool;
  kw_data : gmap string json;
  kw_event_from_address : value;
  kw_event_to_address : value;
  kw_event_amount : option Z;
  kw_event_tx_hash_param : value;
  kw_event_sender_address : value;
  kw_event_message : value;
  kw_event_onchain_timestamp : value;
}.

(** What a [CharField] or [TextField] keeps of a value: [str(v)] unless it
    is a [str] or [None]. *)
Definition text_prep (R : runtime) (v : value) : option string :=
  match v with
  | VNone => None
  | VStr s => Some s
  | VInt n => Some (str_of_int n)
  | VBool b => Some (if b then "True" else "False")
  | VBytes b => Some (str_of_bytes R b)
  end.

(** What an integer column keeps of a value: [int(v)] unless it is [None]. *)
Definition integer_prep (R : runtime) (v : value) : result (option Z) :=
  match v with
  | VNone => Ok None
  | VInt n => Ok (Some n)
  | VBool b => Ok (Some (Z.b2z b))
  | VStr s =>
      match int_of_str R s with
      | Some n => Ok (Some n)
      | None => Raise ValueError
      end
  | VBytes b =>
      match int_of_bytes R b with
      | Some n => Ok (Some n)
      | None => Raise ValueError
      end
  end.

Definition option_ok {A} (ok : A -> bool) (o : option A) : bool :=
  match o with
  | Some a => ok a
  | None => true
  end.

Definition check (b : bool) (e : exn) : result unit :=
  if b then Ok tt else Raise e.

(** The row that [ContractEvent.objects.create] sends to the table,
    when every column accepts its value. *)
Definition row_of_event_data (R : runtime) (kw : event_data)
  : result ContractEvent :=
  let from_address := text_prep R (kw_event_from_address kw) in
  let to_address := text_prep R (kw_event_to_address kw) in
  let sender_address := text_prep R (kw_event_sender_address kw) in
  result_bind (integer_prep R (kw_event_onchain_timestamp kw)) (fun onchain =>
  result_bind (check (PositiveIntegerField_ok (kw_log_index kw)) DataError) (fun _ =>
  result_bind (check (varchar_ok 100 (kw_event_name kw)) DataError) (fun _ =>
  result_bind (check (varchar_ok 42 (kw_contract_address kw)) DataError) (fun _ =>
  result_bind (check (option_ok (varchar_ok 42) from_address) DataError) (fun _ =>
  result_bind (check (option_ok (varchar_ok 42) to_address) DataError) (fun _ =>
  result_bind (check (option_ok (varchar_ok 42) sender_address) DataError) (fun _ =>
  result_bind (check (option_ok DecimalField_ok (kw_event_amount kw)) InvalidOperation) (fun _ =>
  result_bind (check (option_ok PositiveBigIntegerField_ok onchain) DataError) (fun _ =>
  Ok {| transaction_id := transaction_hash (kw_transaction kw);
        log_index := kw_log_index kw;
        event_name := kw_event_name kw;
        contract_address := kw_contract_address kw;
        block_timestamp := kw_block_timestamp kw;
        is_fraudulent := kw_is_fraudulent kw;
        data := kw_data kw;
        event_from_address := from_address;
        event_to_address := to_address;
        event_amount := kw_event_amount kw;
        event_tx_hash_param := text_prep R (kw_event_tx_hash_param kw);
        event_sender_address := sender_address;
        event_message := text_prep R (kw_event_message kw);
        event_onchain_timestamp := onchain |}))))))))).

Definition add_event (row : ContractEvent) (d : database) : database :=
  {| transactions := transactions d;
     events := events d ++ [row] |}.

(** [ContractEvent.objects.create], with the table's
    [unique_together = [("transaction", "log_index")]]. *)
Definition ContractEvent_objects_create (R : runtime) (kw : event_data)
  : M unit :=
  fun s =>
    match row_of_event_data R kw with
    | Raise e => (Raise e, s)
    | Ok row =>
        if existsb (same_key (transaction_id row) (log_index row))
             (events (db s))
        then (Raise IntegrityError, s)
        else (Ok tt, set_db s (add_event row (db s)))
    end.

(** ** One raw entry: the body of the inner loop *)

(** An entry together with what the outside world answers while it is
    processed: the wall clock, and the timestamp that the node reports for
    the entry's block ([None] when the lookup or its conversion fails). *)
Record observation : Type := {
  entry : event_log;
  clock : Z;
  node_timestamp : option Z;
}.

Definition get_block_timestamp (o : observation) (block_number : Z) : Z :=
  match node_timestamp o with
  | Some t => t
  | None => clock o
  end.

(** [Decimal(v)] *)
Definition Decimal (R : runtime) (v : value) : result Z :=
  match v with
  | VInt n => Ok n
  | VBool b => Ok (Z.b2z b)
  | VStr s =>
      match Decimal_of_str R s with
      | Some n => Ok n
      | None => Raise InvalidOperation
      end
  | VBytes _ | VNone => Raise TypeError
  end.

(** The dictionary [event_data_for_model], filled in for the event type. *)
Definition event_data_for_model (R : runtime) (address : string)
    (name : string) (transaction_obj : Transaction) (idx : Z)
    (block_ts : Z) (fraud : bool) (decoded_args : args) : result event_data :=
  let payload := json_dumps R decoded_args in
  if String.eqb name "TransactionSubmitted" then
    let amount_val := dict_get decoded_args "amount" in
    result_bind
      (match amount_val with
       | VNone => Ok None
       | _ => result_bind (Decimal R amount_val) (fun d => Ok (Some d))
       end)
      (fun amount =>
         Ok {| kw_transaction := transaction_obj;
               kw_log_index := idx;
               kw_event_name := name;
               kw_contract_address := address;
               kw_block_timestamp := block_ts;
               kw_is_fraudulent := fraud;
               kw_data := payload;
               kw_event_from_address := dict_get decoded_args "from";
               kw_event_to_address := dict_get decoded_args "to";
               kw_event_amount := amount;
               kw_event_tx_hash_param := dict_get decoded_args "txHash";
               kw_event_sender_address := VNone;
               kw_event_message := VNone;
               kw_event_onchain_timestamp := VNone |})
  else if String.eqb name "ContractEvent" then
    Ok {| kw_transaction := transaction_obj;
          kw_log_index := idx;
          kw_event_name := name;
          kw_contract_address := address;
          kw_block_timestamp := block_ts;
          kw_is_fraudulent := fraud;
          kw_data := payload;
          kw_event_from_address := VNone;
          kw_event_to_address := VNone;
          kw_event_amount := None;
          kw_event_tx_hash_param := VNone;
          kw_event_sender_address := dict_get decoded_args "sender";
          kw_event_message := dict_get decoded_args "message";
          kw_event_onchain_timestamp := dict_get decoded_args "timestamp" |}
  else
    Ok {| kw_transaction := transaction_obj;
          kw_log_index := idx;
          kw_event_name := name;
          kw_contract_address := address;
          kw_block_timestamp := block_ts;
          kw_is_fraudulent := fraud;
          kw_data := payload;
          kw_event_from_address := VNone;
          kw_event_to_address := VNone;
          kw_event_amount := None;
          kw_event_tx_hash_param := VNone;
          kw_event_sender_address := VNone;
          kw_event_message := VNone;
          kw_event_onchain_timestamp := VNone |}.

(** How the atomic block ends when it does not raise: at its last line, or
    at the [continue] of the duplicate check. *)
Inductive outcome : Type :=
  | Inserted
  | DuplicateSkipped.

Definition raise_block_number (t : Transaction) (block_num : Z) : Transaction :=
  {| transaction_hash := transaction_hash t;
     block_number := block_num;
     created_at := created_at t |}.

(** Lines 139-146 of [tasks.py]: the transaction row is fetched or created,
    and its block number raised when the entry reports a later block. *)
Definition get_or_create_transaction (o : observation) : M Transaction :=
  let tx_hash := transactionHash (entry o) in
  let block_num := blockNumber (entry o) in
  let* (transaction_obj, created) :=
    Transaction_get_or_create tx_hash block_num (clock o) in
  if negb created && (block_number transaction_obj <? block_num)
  then (Transaction_save (raise_block_number transaction_obj block_num) ;;
        ret (raise_block_number transaction_obj block_num))
  else ret transaction_obj.

(** Lines 149-195 of [tasks.py]: the duplicate check, then decoding,
    validation, the fraud check and the creation of the event row. *)
Definition store_event (R : runtime) (address : string) (name : string)
    (o : observation) (transaction_obj : Transaction) : M outcome :=
  let event_log := entry o in
  let tx_hash := transactionHash event_log in
  let block_num := blockNumber event_log in
  let idx := logIndex event_log in
  let* duplicate := ContractEvent_exists transaction_obj idx in
  if duplicate then ret DuplicateSkipped
  else
    let* decoded_args := lift (decoded event_log) in
    (lift (validate_transaction_hash tx_hash) ;;
     lift (validate_block_number block_num) ;;
     let fraud := detect_fraud name event_log decoded_args in
     (if fraud then incr_fraud_detected_count else ret tt) ;;
     let block_ts := get_block_timestamp o block_num in
     let* kw :=
       lift (event_data_for_model R address name transaction_obj idx
               block_ts fraud decoded_args) in
     (ContractEvent_objects_create R kw ;;
      incr_processed_count ;;
      ret Inserted)).

(** Lines 132-195 of [tasks.py]: the body of the inner [try]. *)
Definition ingest (R : runtime) (address : string) (name : string)
    (o : observation) : M outcome :=
  atomic (
    let* transaction_obj := get_or_create_transaction o in
    store_event R address name o transaction_obj).

(** The inner [try ... except Exception]: the handler only logs. *)
Definition process_entry (R : runtime) (address : string) (name : string)
    (s : run_state) (o : observation) : run_state :=
  snd (ingest R address name o s).

(** [for event_log in events:] *)
Definition process_events (R : runtime) (address : string) (name : string)
    (s : run_state) (events : list observation) : run_state :=
  fold_left (process_entry R address name) events s.

(** ** The polling task *)

(** What the node answers when one event type is asked for:
    the event is not in the ABI, the filter calls raise, or entries come. *)
Inductive fetch_result : Type :=
  | NotInAbi
  | FetchRaises (e : exn)
  | Entries (l : list observation).

Record settings : Type := {
  TRANSACTION_CONTRACT_ADDRESS : option string;
  TRANSACTION_CONTRACT_ABI_PATH : option string;
}.

(** The node and the files behind lines 86-96 and 105: [load_contract] is
    the checksum address of the contract once the ABI file has been read
    and the contract object built. *)
Record node : Type := {
  is_connected : result bool;
  load_contract : result string;
  block_number_now : result Z;
  get_all_entries : string -> Z -> Z -> fetch_result;
}.

(** The text returned by the task, by case. *)
Inductive poll_result : Type :=
  | ConfigurationError
  | ConnectionError
  | InitializationError (e : exn)
  | BlockNumberError
  | Summary (processed flagged : Z).

(** [not x] for a setting that is a [str] or is missing. *)
Definition not_set (x : option string) : bool :=
  match x with
  | None => true
  | Some EmptyString => true
  | Some (String _ _) => false
  end.

Definition event_names_to_poll : list string :=
  ["TransactionSubmitted"; "ContractEvent"].

(** The body of the outer loop, for one event type. *)
Definition poll_event_type (R : runtime) (address : string) (N : node)
    (from_block to_block : Z) (s : run_state) (name : string) : run_state :=
  match get_all_entries N name from_block to_block with
  | NotInAbi => s
  | FetchRaises _ => s
  | Entries events => process_events R address name s events
  end.

Definition initial_state (d : database) : run_state :=
  {| db := d; processed_count := 0; fraud_detected_count := 0 |}.

Definition poll_contract_events (R : runtime) (S : settings) (N : node)
    (start_block_offset : Z) (d : database) : poll_result * database :=
  if not_set (TRANSACTION_CONTRACT_ADDRESS S)
     || not_set (TRANSACTION_CONTRACT_ABI_PATH S)
  then (ConfigurationError, d)
  else
    match is_connected N with
    | Raise e => (InitializationError e, d)
    | Ok false => (ConnectionError, d)
    | Ok true =>
        match load_contract N with
        | Raise e => (InitializationError e, d)
        | Ok address =>
            match block_number_now N with
            | Raise _ => (BlockNumberError, d)
            | Ok latest_block =>
                let from_block := Z.max 0 (latest_block - start_block_offset) in
                let to_block := latest_block in
                let s :=
                  fold_left (poll_event_type R address N from_block to_block)
                    event_names_to_poll (initial_state d) in
                (Summary (processed_count s) (fraud_detected_count s), db s)
            end
        end
    end.

(** ** Notions used to state the properties *)

(** The capital letters among the code points below 256: [A] to [Z], and the
    accented capitals of Latin-1 ([U+00C0] to [U+00DE], the multiplication
    sign [U+00D7] apart).  The small letter of each lies 32 code points
    higher. *)
Definition is_capital (c : ascii) : Prop :=
  let n := N_of_ascii c in
  (65 <= n <= 90)%N \/ ((192 <= n <= 222)%N /\ n <> 215%N).

(** [a] and [b] are the same letter, in the same case or not. *)
Definition same_letter (a b : ascii) : Prop :=
  a = b
  \/ (is_capital a /\ N_of_ascii b = (N_of_ascii a + 32)%N)
  \/ (is_capital b /\ N_of_ascii a = (N_of_ascii b + 32)%N).

(** Two texts of one length that agree letter by letter, case ignored. *)
Inductive same_text : string -> string -> Prop :=
  | same_text_nil : same_text "" ""
  | same_text_cons (a b : ascii) (s t : string) :
      same_letter a b -> same_text s t ->
      same_text (String a s) (String b t).

Fixpoint no_capitals (s : string) : Prop :=
  match s with
  | EmptyString => True
  | String c s' => ~ is_capital c /\ no_capitals s'
  end.

(** [s] contains [phrase] when letter case is ignored: some stretch of [s]
    agrees with [phrase] letter by letter, whatever the case of each
    letter. *)
Definition contains_ignoring_case (phrase s : string) : Prop :=
  exists pre mid post,
    s = String.append pre (String.append mid post)
    /\ same_text mid phrase.


(** Every [Transaction] row is stored under its own hash, the primary key. *)
Definition pk_consistent (d : database) : Prop :=
  map_Forall (fun h t => transaction_hash t = h) (transactions d).

(** What an observation of hash [h] at block [b] does to the table of
    transactions when the atomic block commits. *)
Definition observe_block (h : string) (b now : Z)
    (m : gmap string Transaction) : gmap string Transaction :=
  match m !! h with
  | None =>
      <[h := {| transaction_hash := h; block_number := b; created_at := now |}]> m
  | Some t =>
      if block_number t <? b then <[h := raise_block_number t b]> m else m
  end.

Definition stored_block (d : database) (h : string) : option Z :=
  block_number <$> transactions d !! h.

(** The row that an entry gives for the transaction object [t], when its
    decoding, the validators and every column accept it. *)
Definition entry_row (R : runtime) (address : string) (name : string)
    (o : observation) (t : Transaction) : result ContractEvent :=
  let l := entry o in
  result_bind (decoded l) (fun decoded_args =>
  result_bind (validate_transaction_hash (transactionHash l)) (fun _ =>
  result_bind (validate_block_number (blockNumber l)) (fun _ =>
  result_bind
    (event_data_for_model R address name t (logIndex l)
       (get_block_timestamp o (blockNumber l))
       (detect_fraud name l decoded_args) decoded_args)
    (row_of_event_data R)))).

Definition is_ok {A} (r : result A) : bool :=
  match r with
  | Ok _ => true
  | Raise _ => false
  end.

Definition first_seen (o : observation) : Transaction :=
  {| transaction_hash := transactionHash (entry o);
     block_number := blockNumber (entry o);
     created_at := clock o |}.

(** The transaction object that the atomic block holds once it has looked
    the hash up, created the row if needed and raised its block number. *)
Definition transaction_seen (o : observation) (m : gmap string Transaction)
  : Transaction :=
  match m !! transactionHash (entry o) with
  | None => first_seen o
  | Some t =>
      if block_number t <? blockNumber (entry o)
      then raise_block_number t (blockNumber (entry o))
      else t
  end.

(** The table of transactions at that point. *)
Definition table_seen (o : observation) (m : gmap string Transaction)
  : gmap string Transaction :=
  match m !! transactionHash (entry o) with
  | None => <[transactionHash (entry o) := first_seen o]> m
  | Some t =>
      if block_number t <? blockNumber (entry o)
      then <[transaction_hash t := raise_block_number t (blockNumber (entry o))]> m
      else m
  end.

(** Whether the writes of lines 139-146 are accepted by the table. *)
Definition transaction_step_ok (o : observation)
    (m : gmap string Transaction) : bool :=
  match m !! transactionHash (entry o) with
  | None =>
      varchar_ok 66 (transactionHash (entry o))
      && PositiveIntegerField_ok (blockNumber (entry o))
  | Some t =>
      if block_number t <? blockNumber (entry o)
      then PositiveIntegerField_ok (blockNumber (entry o))
      else true
  end.

(** The database when the atomic block passes the duplicate check. *)
Definition committed (o : observation) (d : database) : database :=
  {| transactions := table_seen o (transactions d); events := events d |}.

(** The three ways in which the inner [try] ends. *)
Inductive entry_result : Type :=
  | Stored (row : ContractEvent)
  | Skipped
  | Failed (e : exn).

(** An entry that no step of the atomic block rejects. *)
Definition well_formed (R : runtime) (address : string) (name : string)
    (o : observation) : bool :=
  varchar_ok 66 (transactionHash (entry o))
  && PositiveIntegerField_ok (blockNumber (entry o))
  && is_ok (entry_row R address name o (first_seen o)).

(** The deduplication key of an entry. *)
Definition key_of (o : observation) : string * Z :=
  (transactionHash (entry o), logIndex (entry o)).

Definition has_event (d : database) (k : string * Z) : bool :=
  existsb (same_key (fst k) (snd k)) (events d).

(** How the inner [try] ends for an entry met with the database [d]. *)
Definition entry_outcome (R : runtime) (address : string) (name : string)
    (o : observation) (d : database) : entry_result :=
  if transaction_step_ok o (transactions d) then
    let t := transaction_seen o (transactions d) in
    if has_event d (transaction_hash t, logIndex (entry o)) then Skipped
    else
      match entry_row R address name o t with
      | Ok row => Stored row
      | Raise e => Failed e
      end
  else Failed DataError.

(** The database that the entry leaves. *)
Definition db_after (R : runtime) (address : string) (name : string)
    (o : observation) (d : database) : database :=
  match entry_outcome R address name o d with
  | Stored row => add_event row (committed o d)
  | Skipped => committed o d
  | Failed _ => d
  end.

Definition is_stored (r : entry_result) : bool :=
  match r with
  | Stored _ => true
  | Skipped | Failed _ => false
  end.

Definition is_flagged (r : entry_result) : bool :=
  match r with
  | Stored row => is_fraudulent row
  | Skipped | Failed _ => false
  end.

(** Any sequence of passes through the inner loop, each with the event type
    under which the entry was fetched: the batches of one run one after the
    other, or those of several runs. *)
Definition process_sequence (R : runtime) (address : string)
    (s : run_state) (l : list (string * observation)) : run_state :=
  fold_left (fun s p => process_entry R address (fst p) s (snd p)) l s.

(** The database after such a sequence. *)
Definition db_sequence (R : runtime) (address : string) (d : database)
    (l : list (string * observation)) : database :=
  fold_left (fun d p => db_after R address (fst p) (snd p) d) l d.

(** The outcomes of such a sequence, entry by entry. *)
Fixpoint outcomes (R : runtime) (address : string)
    (d : database) (l : list (string * observation)) : list entry_result :=
  match l with
  | [] => []
  | p :: l' =>
      entry_outcome R address (fst p) (snd p) d
      :: outcomes R address (db_after R address (fst p) (snd p) d) l'
  end.

Definition count_of (p : entry_result -> bool) (l : list entry_result) : Z :=
  Z.of_nat (length (filter (fun r => p r = true) l)).

(** The block numbers that the observations of hash [h] carry. *)
Definition block_numbers_of (h : string) (l : list (string * observation))
  : list Z :=
  map (fun p => blockNumber (entry (snd p)))
    (filter (fun p => transactionHash (entry (snd p)) = h) l).

(** The stored block number after one more observed block. *)
Definition merge_block (stored : option Z) (b : Z) : option Z :=
  match stored with
  | None => Some b
  | Some x => Some (Z.max x b)
  end.

Definition is_maximum (m : Z) (bs : list Z) : Prop :=
  In m bs /\ forall b, In b bs -> b <= m.

(** The entries that a run gets for one event type, with their type: none
    when the type is skipped. *)
Definition fetched_entries (N : node) (from_block to_block : Z)
    (name : string) : list (string * observation) :=
  match get_all_entries N name from_block to_block with
  | Entries l => map (pair name) l
  | NotInAbi | FetchRaises _ => []
  end.

(** A value that the JSON encoder takes as it is. *)
Definition json_native (v : value) : bool :=
  match v with
  | VNone | VBool _ | VInt _ | VStr _ => true
  | VBytes _ => false
  end.

(** ** Sample inputs *)

Definition sample_runtime : runtime :=
  {| int_of_str := fun _ => None;
     int_of_bytes := fun _ => None;
     Decimal_of_str := fun _ => None;
     str_of_bytes := fun b => b |}.

Definition sample_log (a : args) : event_log :=
  {| transactionHash :=
       "0xaaaaaaaaaaaaaaaaaaaaaaaaaaaaaaaaaaaaaaaaaaaaaaaaaaaaaaaaaaaaaaaa";
     blockNumber := 100;
     logIndex := 0;
     decoded := Ok a |}.

Definition sample_numeric_message : args := <["message" := VInt 5]> ∅.

Definition sample_capitals_message : args :=
  <["message" := VStr "Please beware, this is a PHISHING Attempt"]> ∅.

Definition sample_text_amount : args :=
  <["amount" := VStr "2000000000000000000000000"]> ∅.

Definition sample_address : string :=
  "0x1111111111111111111111111111111111111111".

Definition hash_a : string :=
  "0xaaaaaaaaaaaaaaaaaaaaaaaaaaaaaaaaaaaaaaaaaaaaaaaaaaaaaaaaaaaaaaaa".

Definition transfer_args (amount : Z) : args :=
  <["from" := VStr sample_address]>
    (<["to" := VStr sample_address]>
       (<["amount" := VInt amount]> (<["txHash" := VStr "0xfeed"]> ∅))).

Definition message_args (message : string) (timestamp : Z) : args :=
  <["sender" := VStr sample_address]>
    (<["message" := VStr message]> (<["timestamp" := VInt timestamp]> ∅)).

(** An entry of transaction [hash_a], seen at wall-clock time [now]. *)
Definition observed (block idx : Z) (d : result args) (now : Z) : observation :=
  {| entry := {| transactionHash := hash_a; blockNumber := block;
                 logIndex := idx; decoded := d |};
     clock := now;
     node_timestamp := Some 1690000000 |}.

Definition empty_db : database := {| transactions := ∅; events := [] |}.

Definition sample_settings : settings :=
  {| TRANSACTION_CONTRACT_ADDRESS := Some sample_address;
     TRANSACTION_CONTRACT_ABI_PATH := Some "contract.json" |}.

(** A node that is up, with the answers [fetch] to the event queries. *)
Definition sample_node (fetch : string -> fetch_result) : node :=
  {| is_connected := Ok true;
     load_contract := Ok sample_address;
     block_number_now := Ok 120;
     get_all_entries := fun name _ _ => fetch name |}.

(** A flagged message whose on-chain timestamp does not fit its column. *)
Definition overflowing_entry : observation :=
  observed 100 0 (Ok (message_args "phishing attempt" (2 ^ 64))) 1700000000.

Definition overflowing_fetch (name : string) : fetch_result :=
  if String.eqb name "ContractEvent" then Entries [overflowing_entry]
  else Entries [].

Definition transfer_entry (block idx : Z) : observation :=
  observed block idx (Ok (transfer_args (10 ^ 24 + 1))) 1700000000.

Definition undecodable_entry : observation :=
  observed 101 7 (Raise DecodeError) 1700000000.

Definition one_type_down (name : string) : fetch_result :=
  if String.eqb name "TransactionSubmitted" then FetchRaises ConnectivityError
  else Entries [observed 100 1 (Ok (message_args "hello world" 1690000000))
                  1700000000].

(** ** The read side ([schema.py]) *)

(** [Query.resolve_transaction_by_hash]: [Transaction.objects.get(pk=tx_hash)],
    with [None] when no such row exists. *)
Definition resolve_transaction_by_hash (d : database) (tx_hash : string)
  : option Transaction :=
  transactions d !! tx_hash.

(** [ContractEvent.Meta.ordering = ["-block_timestamp", "-log_index"]]:
    [e1] may come before [e2]. *)
Definition ContractEvent_ordering (e1 e2 : ContractEvent) : Prop :=
  block_timestamp e2 < block_timestamp e1
  \/ (block_timestamp e1 = block_timestamp e2 /\ log_index e2 <= log_index e1).

#[global] Instance ContractEvent_ordering_dec :
  RelDecision ContractEvent_ordering.
Proof. intros e1 e2. unfold ContractEvent_ordering. apply _. Defined.

(** [Query.resolve_events_by_transaction]:
    [ContractEvent.objects.filter(transaction__transaction_hash=tx_hash)],
    in the default ordering of the model. *)
Definition resolve_events_by_transaction (d : database) (tx_hash : string)
  : list ContractEvent :=
  merge_sort ContractEvent_ordering
    (filter (fun e => transaction_id e = tx_hash) (events d)).

(** ** More notions used to state the properties *)

Fixpoint all_hex (s : string) : bool :=
  match s with
  | EmptyString => true
  | String c s' => is_hex_digit c && all_hex s'
  end.

Definition newline : string := String (ascii_of_N 10) EmptyString.

(** [0x] followed by exactly [n] hexadecimal digits. *)
Definition hex_literal (n : nat) (s : string) : Prop :=
  exists digits,
    String.length digits = n /\ all_hex digits = true
    /\ s = String.append "0x" digits.

(** The key of a stored event under
    [unique_together = [("transaction", "log_index")]]. *)
Definition event_key (e : ContractEvent) : string * Z :=
  (transaction_id e, log_index e).

Definition unique_together (d : database) : Prop :=
  NoDup (map event_key (events d)).

(** Every event row points to a stored transaction ([ForeignKey]). *)
Definition foreign_keys_ok (d : database) : Prop :=
  Forall (fun e => is_Some (transactions d !! transaction_id e)) (events d).

(** What [validate_transaction_hash] lets through: [0x] and 64 hexadecimal
    digits, with at most one newline after them. *)
Definition validated_hash (h : string) : Prop :=
  hex_literal 64 h
  \/ exists s0, hex_literal 64 s0 /\ h = String.append s0 newline.

(** Every stored transaction hash is one that the validator lets through. *)
Definition hashes_validated (d : database) : Prop :=
  map_Forall (fun h (_ : Transaction) => validated_hash h) (transactions d).

(** No stored block number is negative. *)
Definition block_numbers_nonnegative (d : database) : Prop :=
  map_Forall (fun (_ : string) t => 0 <= block_number t) (transactions d).

(** The entry has been taken in: its event row is stored, under a
    transaction whose block number is not below the entry's. *)
Definition ingested (d : database) (l : event_log) : Prop :=
  has_event d (transactionHash l, logIndex l) = true
  /\ exists t,
       transactions d !! transactionHash l = Some t
       /\ blockNumber l <= block_number t.

(** The row with another block timestamp. *)
Definition with_block_timestamp (ts : Z) (row : ContractEvent)
  : ContractEvent :=
  {| transaction_id := transaction_id row;
     log_index := log_index row;
     event_name := event_name row;
     contract_address := contract_address row;
     block_timestamp := ts;
     is_fraudulent := is_fraudulent row;
     data := data row;
     event_from_address := event_from_address row;
     event_to_address := event_to_address row;
     event_amount := event_amount row;
     event_tx_hash_param := event_tx_hash_param row;
     event_sender_address := event_sender_address row;
     event_message := event_message row;
     event_onchain_timestamp := event_onchain_timestamp row |}.

Definition retimed (ts : Z) (r : entry_result) : entry_result :=
  match r with
  | Stored row => Stored (with_block_timestamp ts row)
  | Skipped => Skipped
  | Failed e => Failed e
  end.

(** The rows that a sequence of outcomes stored, in order. *)
Definition stored_rows (l : list entry_result) : list ContractEvent :=
  omap (fun r => match r with
                 | Stored row => Some row
                 | Skipped | Failed _ => None
                 end) l.

(** The rows that the entries give when each is looked at on its own. *)
Definition rows_of_entries (R : runtime) (address : string)
    (l : list (string * observation)) : list ContractEvent :=
  omap (fun p =>
          match entry_row R address (fst p) (snd p) (first_seen (snd p)) with
          | Ok row => Some row
          | Raise _ => None
          end) l.

Definition count_flagged_rows (l : list ContractEvent) : Z :=
  Z.of_nat (length (filter (fun e => is_fraudulent e = true) l)).

(** The entries that a run fetches, in the order in which it meets them. *)
Definition run_entries (N : node) (from_block to_block : Z)
  : list (string * observation) :=
  (fetched_entries N from_block to_block "TransactionSubmitted"
   ++ fetched_entries N from_block to_block "ContractEvent")%list.

Definition unconfigured_settings : settings :=
  {| TRANSACTION_CONTRACT_ADDRESS := None;
     TRANSACTION_CONTRACT_ABI_PATH := Some "contract.json" |}.

Definition hello_entry : observation :=
  observed 100 1 (Ok (message_args "hello world" 1690000000)) 1700000000.

Definition both_types (name : string) : fetch_result :=
  if String.eqb name "TransactionSubmitted"
  then Entries [transfer_entry 100 0]
  else Entries [hello_entry].

(** The key of [transfer_entry 100 0] again, at a later block, with a
    payload that cannot be decoded. *)
Definition late_duplicate : observation :=
  observed 105 0 (Raise DecodeError) 1700000600.

Definition after_first_transfer : run_state :=
  process_entry sample_runtime sample_address "TransactionSubmitted"
    (initial_state empty_db) (transfer_entry 100 0).

(** ** Proof steps *)

(** Case analysis on every bind of a goal, one after the other. *)
Ltac step_binds :=
  repeat match goal with
  | |- context [result_bind ?r _] =>
      destruct r; simpl; try reflexivity
  end.

(** Case analysis on an equation [... = Ok x] between results: every bind
    and every test on the way must have succeeded. *)
Ltac ok_inversion H :=
  repeat match type of H with
  | result_bind ?r _ = Ok _ =>
      destruct r eqn:?; simpl in H; try discriminate
  | context [if ?b then _ else _] =>
      destruct b eqn:?; simpl in H; try discriminate
  end;
  injection H as <-.

(** * Properties *)

(** ** Strings *)

Lemma str_lower_app (a b : string) :
  str_lower (String.append a b) = String.append (str_lower a) (str_lower b).
Proof.
  induction a as [|c a IH]; simpl; [reflexivity|]. now rewrite IH.
Qed.

Lemma str_lower_split (s x y : string) :
  str_lower s = String.append x y ->
  exists s1 s2, s = String.append s1 s2 /\ str_lower s1 = x /\ str_lower s2 = y.
Proof.
  revert s. induction x as [|c x IH]; intros s H; simpl in H.
  - exists EmptyString, s. auto.
  - destruct s as [|d s]; simpl in H; [discriminate|].
    injection H as Hc Hs.
    destruct (IH _ Hs) as (s1 & s2 & -> & H1 & H2).
    exists (String d s1), s2. simpl. rewrite Hc, H1. auto.
Qed.

Lemma str_startswith_spec (p s : string) :
  str_startswith p s = true <-> exists post, s = String.append p post.
Proof.
  revert s. induction p as [|a p IH]; intros s; simpl.
  - split; eauto.
  - destruct s as [|b s].
    + split; [discriminate|]. intros [post H]. discriminate.
    + rewrite andb_true_iff, IH, Ascii.eqb_eq. split.
      * intros [-> [post ->]]. eauto.
      * intros [post H]. injection H as -> ->. eauto.
Qed.

Lemma str_contains_spec (needle hay : string) :
  str_contains needle hay = true
  <-> exists pre post, hay = String.append pre (String.append needle post).
Proof.
  induction hay as [|c hay IH]; simpl.
  - rewrite orb_false_r, str_startswith_spec. split.
    + intros [post H]. exists EmptyString, post. exact H.
    + intros (pre & post & H). destruct pre; simpl in H.
      * eauto.
      * discriminate.
  - rewrite orb_true_iff, str_startswith_spec, IH. split.
    + intros [[post H]|(pre & post & H)].
      * exists EmptyString, post. exact H.
      * exists (String c pre), post. simpl. now rewrite H.
    + intros (pre & post & H). destruct pre as [|d pre]; simpl in H.
      * left. eauto.
      * right. injection H as _ H. eauto.
Qed.

(** [lower_char] moves a capital to its small letter and leaves every other
    character alone. *)
Lemma N_of_ascii_inj (a b : ascii) : N_of_ascii a = N_of_ascii b -> a = b.
Proof.
  intros H. rewrite <- (ascii_N_embedding a), <- (ascii_N_embedding b).
  now rewrite H.
Qed.

Lemma lower_char_capital (c : ascii) :
  is_capital c -> N_of_ascii (lower_char c) = (N_of_ascii c + 32)%N.
Proof.
  unfold is_capital, lower_char. cbv zeta. intros H.
  destruct (((65 <=? N_of_ascii c)%N && (N_of_ascii c <=? 90)%N)
            || ((192 <=? N_of_ascii c)%N && (N_of_ascii c <=? 222)%N
                && negb (N_of_ascii c =? 215)%N)) eqn:E.
  - apply N_ascii_embedding. lia.
  - exfalso.
    rewrite orb_false_iff, !andb_false_iff, negb_false_iff, !N.leb_gt,
      N.eqb_eq in E.
    lia.
Qed.

Lemma lower_char_other (c : ascii) : ~ is_capital c -> lower_char c = c.
Proof.
  unfold is_capital, lower_char. cbv zeta. intros H.
  destruct (((65 <=? N_of_ascii c)%N && (N_of_ascii c <=? 90)%N)
            || ((192 <=? N_of_ascii c)%N && (N_of_ascii c <=? 222)%N
                && negb (N_of_ascii c =? 215)%N)) eqn:E; [|reflexivity].
  exfalso. apply H.
  rewrite orb_true_iff, !andb_true_iff, negb_true_iff, !N.leb_le,
    N.eqb_neq in E.
  lia.
Qed.

Lemma is_capital_dec (c : ascii) : is_capital c \/ ~ is_capital c.
Proof. unfold is_capital. cbv zeta. lia. Qed.

Lemma same_letter_lower_char (c : ascii) : same_letter c (lower_char c).
Proof.
  destruct (is_capital_dec c) as [H|H].
  - right. left. split; [exact H|]. now apply lower_char_capital.
  - left. symmetry. now apply lower_char_other.
Qed.

Lemma same_letter_small (c p : ascii) :
  same_letter c p -> ~ is_capital p -> lower_char c = p.
Proof.
  intros [->|[[Hc H]|[Hp _]]] Hsmall.
  - now apply lower_char_other.
  - apply N_of_ascii_inj. rewrite H. now apply lower_char_capital.
  - contradiction.
Qed.

Lemma same_text_str_lower (s : string) : same_text s (str_lower s).
Proof.
  induction s as [|c s IH]; simpl; constructor;
    auto using same_letter_lower_char.
Qed.

Lemma same_text_small (s phrase : string) :
  same_text s phrase -> no_capitals phrase -> str_lower s = phrase.
Proof.
  induction 1 as [|a b s t Hab Hst IH]; simpl; [reflexivity|].
  intros [Hb Ht]. rewrite (same_letter_small _ _ Hab Hb), (IH Ht).
  reflexivity.
Qed.

(** The test of the message rule is containment up to case, for a phrase
    written in small letters. *)
Lemma lower_contains_iff (phrase s : string) :
  no_capitals phrase ->
  str_contains phrase (str_lower s) = true <-> contains_ignoring_case phrase s.
Proof.
  intros Hp. rewrite str_contains_spec. unfold contains_ignoring_case. split.
  - intros (pre & post & H).
    apply str_lower_split in H as (s1 & s2 & -> & H1 & H2).
    apply str_lower_split in H2 as (s3 & s4 & -> & H3 & H4).
    exists s1, s3, s4. split; [reflexivity|].
    rewrite <- H3. apply same_text_str_lower.
  - intros (pre & mid & post & -> & H).
    exists (str_lower pre), (str_lower post).
    rewrite !str_lower_app, (same_text_small _ _ H Hp). reflexivity.
Qed.

Lemma suspicious_phrase_small : no_capitals suspicious_phrase.
Proof.
  unfold suspicious_phrase. simpl.
  repeat (split; [unfold is_capital; simpl; lia|]). exact I.
Qed.

(** ** The classifier *)

Lemma dict_truthy_lookup (a : args) (k : string) (v : value) :
  a !! k = Some v -> dict_truthy a = true.
Proof.
  intros H. unfold dict_truthy. apply negb_true_iff, bool_decide_eq_false.
  intros ->. rewrite lookup_empty in H. discriminate.
Qed.

Lemma dict_falsy_lookup (a : args) (k : string) :
  dict_truthy a = false -> a !! k = None.
Proof.
  unfold dict_truthy. intros H. apply negb_false_iff, bool_decide_eq_true in H.
  subst a. apply lookup_empty.
Qed.

(** On a value transfer only the amount rule is consulted. *)
Lemma detect_fraud_TransactionSubmitted (log : event_log) (a : args) :
  detect_fraud "TransactionSubmitted" log a
  = dict_truthy a && swallow (high_amount_rule a false) false.
Proof.
  unfold detect_fraud. cbn [String.eqb Ascii.eqb Bool.eqb andb].
  destruct (dict_truthy a); reflexivity.
Qed.

(** On a generic message only the message rule is consulted. *)
Lemma detect_fraud_ContractEvent (log : event_log) (a : args) :
  detect_fraud "ContractEvent" log a
  = dict_truthy a && swallow (suspicious_message_rule a false) false.
Proof.
  unfold detect_fraud. cbn [String.eqb Ascii.eqb Bool.eqb andb].
  destruct (dict_truthy a); reflexivity.
Qed.

Lemma high_amount_rule_true (a : args) :
  swallow (high_amount_rule a false) false = true
  <-> exists n, a !! "amount" = Some (VInt n) /\ fraud_threshold < n.
Proof.
  unfold high_amount_rule, dict_get, swallow.
  destruct (a !! "amount") as [[|b|n|s|s]|] eqn:E; simpl.
  - split; [discriminate|]. intros (n & H & _). discriminate.
  - assert ((fraud_threshold <? Z.b2z b) = false) as ->.
    { apply Z.ltb_ge. destruct b; vm_compute; discriminate. }
    split; [discriminate|]. intros (n & H & _). discriminate.
  - destruct (fraud_threshold <? n) eqn:L.
    + apply Z.ltb_lt in L. split; eauto.
    + apply Z.ltb_ge in L. split; [discriminate|].
      intros (m & H & Hm). injection H as ->. lia.
  - split; [discriminate|]. intros (n & H & _). discriminate.
  - split; [discriminate|]. intros (n & H & _). discriminate.
  - split; [discriminate|]. intros (n & H & _). discriminate.
Qed.

(** C5. On a [TransactionSubmitted] event [detect_fraud] answers true
    exactly when the decoded amount is an integer strictly above the
    threshold, which is 10^24: an amount of exactly 10^24 gives false and
    10^24 + 1 gives true. *)
Theorem C5_high_amount_strictly_above_threshold :
  fraud_threshold = 10 ^ 24
  /\ (forall (log : event_log) (a : args),
        detect_fraud "TransactionSubmitted" log a = true
        <-> exists n, a !! "amount" = Some (VInt n) /\ 10 ^ 24 < n)
  /\ (forall log : event_log,
        detect_fraud "TransactionSubmitted" log
          (<["amount" := VInt (10 ^ 24)]> ∅) = false)
  /\ (forall log : event_log,
        detect_fraud "TransactionSubmitted" log
          (<["amount" := VInt (10 ^ 24 + 1)]> ∅) = true).
Proof.
  assert (Hiff : forall (log : event_log) (a : args),
             detect_fraud "TransactionSubmitted" log a = true
             <-> exists n, a !! "amount" = Some (VInt n) /\ 10 ^ 24 < n).
  { intros log a. rewrite detect_fraud_TransactionSubmitted.
    rewrite andb_true_iff, high_amount_rule_true. unfold fraud_threshold.
    split.
    - intros [_ H]. exact H.
    - intros (n & H & Hn). split; [|eauto].
      eapply dict_truthy_lookup; eauto. }
  split; [reflexivity|]. split; [exact Hiff|]. split.
  - intros log. apply not_true_iff_false. rewrite Hiff.
    intros (n & H & Hn). rewrite lookup_insert_eq in H. injection H as <-. lia.
  - intros log. apply Hiff. exists (10 ^ 24 + 1).
    rewrite lookup_insert_eq. split; [reflexivity|lia].
Qed.

Lemma suspicious_message_rule_raises (a : args) (flag : bool) :
  (exists e, suspicious_message_rule a flag = Raise e)
  <-> exists v, a !! "message" = Some v /\ (forall s, v <> VStr s).
Proof.
  unfold suspicious_message_rule, dict_get_default.
  destruct (a !! "message") as [[|b|n|s|s]|] eqn:E; simpl;
    try (split; [intros _; eexists; split; [reflexivity|discriminate]
                |intros _; eexists; reflexivity]).
  - split; [intros [e H]; discriminate|].
    intros (v & H & Hv). injection H as <-. now destruct (Hv s).
  - split; [intros [e H]; discriminate|]. intros (v & H & _). discriminate.
Qed.

Lemma suspicious_message_rule_true (a : args) :
  swallow (suspicious_message_rule a false) false = true
  <-> exists s, a !! "message" = Some (VStr s)
                /\ contains_ignoring_case suspicious_phrase s.
Proof.
  unfold suspicious_message_rule, dict_get_default, swallow.
  destruct (a !! "message") as [[|b|n|s|s]|] eqn:E; simpl;
    try (split; [discriminate|intros (s' & H & _); discriminate]).
  destruct (str_contains suspicious_phrase (str_lower s)) eqn:C.
  - apply lower_contains_iff in C; [|exact suspicious_phrase_small].
    split; eauto.
  - split; [discriminate|]. intros (s' & H & Hs). injection H as <-.
    apply lower_contains_iff in Hs; [|exact suspicious_phrase_small].
    congruence.
Qed.

(** C6. On a [ContractEvent] event [detect_fraud] answers true exactly when
    the decoded message is a text that contains the suspicious phrase, letter
    case ignored: some stretch of the message agrees with the phrase letter
    by letter, capitals and small letters taken as the same.  So a message
    that writes the phrase in capitals is flagged like one that writes it in
    small letters, and a message without it is not.  Whenever the body of the
    message rule raises (the message is not a text), the rule counts as false
    and [detect_fraud] answers false instead of raising.  The body of the
    amount rule never raises. *)
Theorem C6_message_rule_and_fail_open :
  (forall (log : event_log) (a : args),
     detect_fraud "ContractEvent" log a = true
     <-> exists s, a !! "message" = Some (VStr s)
                   /\ contains_ignoring_case suspicious_phrase s)
  /\ (forall (log : event_log),
        detect_fraud "ContractEvent" log
          (<["message" := VStr "Please beware, this is a PHISHING Attempt"]> ∅)
        = true
        /\ detect_fraud "ContractEvent" log
             (<["message" := VStr "Please beware, this is a phishing attempt"]>
                ∅)
           = true
        /\ detect_fraud "ContractEvent" log
             (<["message" := VStr "pHiShInG aTtEmPt"]> ∅)
           = true
        /\ detect_fraud "ContractEvent" log
             (<["message" := VStr "hello world"]> ∅)
           = false
        /\ detect_fraud "ContractEvent" log
             (<["message" := VStr "PHISHING  ATTEMPT"]> ∅)
           = false)
  /\ (forall (log : event_log) (a : args) (e : exn),
        suspicious_message_rule a false = Raise e ->
        swallow (suspicious_message_rule a false) false = false
        /\ detect_fraud "ContractEvent" log a = false)
  /\ (forall (a : args) (flag : bool),
        exists b, high_amount_rule a flag = Ok b).
Proof.
  split; [|split; [|split]].
  - intros log a. rewrite detect_fraud_ContractEvent.
    rewrite andb_true_iff, suspicious_message_rule_true. split.
    + intros [_ H]. exact H.
    + intros (s & H & Hs). split; [|eauto].
      eapply dict_truthy_lookup; eauto.
  - intros log. rewrite !detect_fraud_ContractEvent.
    repeat split; vm_compute; reflexivity.
  - intros log a e H. rewrite detect_fraud_ContractEvent, H. simpl.
    split; [reflexivity|]. apply andb_false_r.
  - intros a flag. unfold high_amount_rule.
    destruct (as_int (dict_get a "amount")); eauto.
Qed.

(** The message rule does raise: on a message that is a number.  And a
    message that writes the phrase in capitals is flagged. *)
Lemma C6_message_rule_and_fail_open_witness :
  (suspicious_message_rule sample_numeric_message false = Raise AttributeError
   /\ swallow (suspicious_message_rule sample_numeric_message false) false
      = false
   /\ detect_fraud "ContractEvent" (sample_log sample_numeric_message)
        sample_numeric_message = false)
  /\ (contains_ignoring_case suspicious_phrase
        "Please beware, this is a PHISHING Attempt"
      /\ detect_fraud "ContractEvent" (sample_log sample_capitals_message)
           sample_capitals_message = true).
Proof.
  split.
  - split; [reflexivity|].
    apply (proj1 (proj2 (proj2 C6_message_rule_and_fail_open))
             (sample_log sample_numeric_message) sample_numeric_message
             AttributeError).
    reflexivity.
  - assert (H : contains_ignoring_case suspicious_phrase
                  "Please beware, this is a PHISHING Attempt").
    { exists "Please beware, this is a ", "PHISHING Attempt", "".
      split; [reflexivity|]. unfold suspicious_phrase.
      repeat (apply same_text_cons;
              [first [ left; reflexivity
                     | right; left; split;
                       [unfold is_capital; simpl; lia | reflexivity] ]|]).
      apply same_text_nil. }
    split; [exact H|].
    apply (proj2 (proj1 C6_message_rule_and_fail_open
                    (sample_log sample_capitals_message)
                    sample_capitals_message)).
    exists "Please beware, this is a PHISHING Attempt".
    split; [reflexivity | exact H].
Defined.

(** C10. On a [TransactionSubmitted] event whose decoded amount is missing
    or is not an integer (a text, bytes, [None]; a boolean too), the amount
    rule is false and so is the verdict, whatever the amount looks like. *)
Theorem C10_non_integer_amount_never_flagged
    (log : event_log) (a : args)
    (Hnot_int : forall n, a !! "amount" <> Some (VInt n)) :
  swallow (high_amount_rule a false) false = false
  /\ detect_fraud "TransactionSubmitted" log a = false.
Proof.
  assert (H : swallow (high_amount_rule a false) false = false).
  { apply not_true_iff_false. rewrite high_amount_rule_true.
    intros (n & Hn & _). exact (Hnot_int n Hn). }
  split; [exact H|].
  rewrite detect_fraud_TransactionSubmitted, H. apply andb_false_r.
Qed.

(** A decimal text far above the threshold is not flagged. *)
Lemma C10_non_integer_amount_never_flagged_witness :
  swallow (high_amount_rule sample_text_amount false) false = false
  /\ detect_fraud "TransactionSubmitted" (sample_log sample_text_amount)
       sample_text_amount = false.
Proof.
  apply (C10_non_integer_amount_never_flagged
           (sample_log sample_text_amount) sample_text_amount).
  intros n. unfold sample_text_amount. rewrite lookup_insert_eq. discriminate.
Defined.

(** ** Ingestion *)

Section Ingestion.

Context (R : runtime) (address : string).

Lemma event_data_for_model_fields name t idx ts fraud a kw :
  event_data_for_model R address name t idx ts fraud a = Ok kw ->
  kw_transaction kw = t /\ kw_log_index kw = idx /\ kw_is_fraudulent kw = fraud
  /\ kw_data kw = json_dumps R a /\ kw_event_name kw = name
  /\ kw_contract_address kw = address /\ kw_block_timestamp kw = ts.
Proof.
  unfold event_data_for_model. intros H.
  repeat case_match; simpl in *; try discriminate;
    ok_inversion H; repeat split; reflexivity.
Qed.

Lemma row_of_event_data_fields kw row :
  row_of_event_data R kw = Ok row ->
  transaction_id row = transaction_hash (kw_transaction kw)
  /\ log_index row = kw_log_index kw
  /\ is_fraudulent row = kw_is_fraudulent kw
  /\ data row = kw_data kw /\ event_name row = kw_event_name kw
  /\ contract_address row = kw_contract_address kw
  /\ block_timestamp row = kw_block_timestamp kw.
Proof.
  unfold row_of_event_data, check. intros H.
  ok_inversion H; repeat split; reflexivity.
Qed.

Lemma get_or_create_transaction_spec o s :
  get_or_create_transaction o s
  = if transaction_step_ok o (transactions (db s))
    then (Ok (transaction_seen o (transactions (db s))),
          set_db s (committed o (db s)))
    else (Raise DataError, s).
Proof.
  unfold get_or_create_transaction, transaction_step_ok, transaction_seen,
    table_seen, committed, bind, ret, Transaction_get_or_create,
    Transaction_save, set_db, put_transaction.
  destruct s as [[T E] pc fc]; simpl.
  unfold transaction_seen, table_seen.
  destruct (T !! transactionHash (entry o)) as [t|] eqn:HT; simpl.
  - destruct (block_number t <? blockNumber (entry o)) eqn:Hlt; simpl.
    + destruct (PositiveIntegerField_ok (blockNumber (entry o))); reflexivity.
    + reflexivity.
  - destruct (varchar_ok 66 _ && PositiveIntegerField_ok _); simpl; reflexivity.
Qed.

Lemma store_event_spec name o t s :
  if existsb (same_key (transaction_hash t) (logIndex (entry o))) (events (db s))
  then store_event R address name o t s = (Ok DuplicateSkipped, s)
  else
    match entry_row R address name o t with
    | Ok row =>
        store_event R address name o t s
        = (Ok Inserted,
           {| db := add_event row (db s);
              processed_count := processed_count s + 1;
              fraud_detected_count :=
                fraud_detected_count s + Z.b2z (is_fraudulent row) |})
    | Raise e =>
        exists fc,
          (fc = fraud_detected_count s \/ fc = fraud_detected_count s + 1)
          /\ store_event R address name o t s
             = (Raise e, {| db := db s; processed_count := processed_count s;
                            fraud_detected_count := fc |})
    end.
Proof.
  unfold store_event, entry_row, bind, ret, lift, ContractEvent_exists,
    ContractEvent_objects_create, incr_fraud_detected_count,
    incr_processed_count, set_db.
  destruct s as [d pc fc]; simpl.
  destruct (existsb _ (events d)) eqn:Hdup; [reflexivity|].
  destruct (decoded (entry o)) as [a|e]; simpl; [|eauto].
  destruct (validate_transaction_hash _) as [[]|e]; simpl; [|eauto].
  destruct (validate_block_number _) as [[]|e]; simpl; [|eauto].
  destruct (event_data_for_model _ _ _ _ _ _ _ _) as [kw|e] eqn:Hkw; simpl.
  - apply event_data_for_model_fields in Hkw as (Ht & Hi & Hf & _).
    destruct (row_of_event_data R kw) as [row|e] eqn:Hrow; simpl.
    + apply row_of_event_data_fields in Hrow as (Hrt & Hri & Hrf & _).
      rewrite Hrf, Hf.
      destruct (detect_fraud name (entry o) a); simpl;
        rewrite Hrt, Hri, Ht, Hi, Hdup; simpl; f_equal; f_equal; lia.
    + destruct (detect_fraud name (entry o) a); simpl; eauto.
  - destruct (detect_fraud name (entry o) a); simpl; eauto.
Qed.

Lemma ingest_spec name o s :
  match entry_outcome R address name o (db s) with
  | Stored row =>
      ingest R address name o s
      = (Ok Inserted,
         {| db := add_event row (committed o (db s));
            processed_count := processed_count s + 1;
            fraud_detected_count :=
              fraud_detected_count s + Z.b2z (is_fraudulent row) |})
  | Skipped =>
      ingest R address name o s
      = (Ok DuplicateSkipped, set_db s (committed o (db s)))
  | Failed e =>
      exists fc,
        (fc = fraud_detected_count s \/ fc = fraud_detected_count s + 1)
        /\ ingest R address name o s
           = (Raise e, {| db := db s; processed_count := processed_count s;
                          fraud_detected_count := fc |})
  end.
Proof.
  unfold entry_outcome, ingest, atomic, bind.
  rewrite get_or_create_transaction_spec.
  destruct (transaction_step_ok o (transactions (db s))).
  - pose proof (store_event_spec name o
                  (transaction_seen o (transactions (db s)))
                  (set_db s (committed o (db s)))) as H.
    unfold has_event. simpl in *.
    destruct (existsb _ (events (db s))).
    + rewrite H. reflexivity.
    + destruct (entry_row _ _ _ _ _) as [row|e].
      * rewrite H. reflexivity.
      * destruct H as (fc & Hfc & ->). simpl. eauto.
  - exists (fraud_detected_count s). split; [auto|].
    destruct s; reflexivity.
Qed.

Lemma process_entry_db name s o :
  db (process_entry R address name s o) = db_after R address name o (db s).
Proof.
  unfold process_entry, db_after.
  pose proof (ingest_spec name o s) as H.
  destruct (entry_outcome R address name o (db s)).
  - rewrite H. reflexivity.
  - rewrite H. reflexivity.
  - destruct H as (fc & _ & ->). reflexivity.
Qed.

Lemma process_entry_processed_count name s o :
  processed_count (process_entry R address name s o)
  = processed_count s + Z.b2z (is_stored (entry_outcome R address name o (db s))).
Proof.
  unfold process_entry.
  pose proof (ingest_spec name o s) as H.
  destruct (entry_outcome R address name o (db s)); simpl.
  - rewrite H. reflexivity.
  - rewrite H. simpl. lia.
  - destruct H as (fc & _ & ->). simpl. lia.
Qed.

Lemma process_entry_fraud_detected_count name s o :
  exists extra,
    (extra = 0 \/ extra = 1)
    /\ (is_stored (entry_outcome R address name o (db s)) = true -> extra = 0)
    /\ (entry_outcome R address name o (db s) = Skipped -> extra = 0)
    /\ fraud_detected_count (process_entry R address name s o)
       = fraud_detected_count s
         + Z.b2z (is_flagged (entry_outcome R address name o (db s))) + extra.
Proof.
  unfold process_entry.
  pose proof (ingest_spec name o s) as H.
  destruct (entry_outcome R address name o (db s)); simpl.
  - rewrite H. exists 0. simpl. repeat split; auto; lia.
  - rewrite H. exists 0. simpl. repeat split; auto; lia.
  - destruct H as (fc & [-> | ->] & ->); simpl.
    + exists 0. repeat split; auto; try discriminate; lia.
    + exists 1. repeat split; auto; try discriminate; lia.
Qed.

Lemma process_sequence_cons s p l :
  process_sequence R address s (p :: l)
  = process_sequence R address (process_entry R address (fst p) s (snd p)) l.
Proof. reflexivity. Qed.

Lemma process_sequence_app s l1 l2 :
  process_sequence R address s (l1 ++ l2)
  = process_sequence R address (process_sequence R address s l1) l2.
Proof. unfold process_sequence. apply fold_left_app. Qed.

Lemma process_events_sequence name obs : forall s,
  process_events R address name s obs
  = process_sequence R address s (map (pair name) obs).
Proof.
  unfold process_events, process_sequence.
  induction obs as [|o obs IH]; intros s; [reflexivity|].
  simpl. apply IH.
Qed.

Lemma process_sequence_db l : forall s,
  db (process_sequence R address s l) = db_sequence R address (db s) l.
Proof.
  induction l as [|p l IH]; intros s; [reflexivity|].
  rewrite process_sequence_cons, IH, process_entry_db. reflexivity.
Qed.

Lemma count_of_cons p r l :
  count_of p (r :: l) = Z.b2z (p r) + count_of p l.
Proof.
  unfold count_of. rewrite filter_cons.
  destruct (decide (p r = true)) as [->|H].
  - simpl. lia.
  - apply not_true_is_false in H. rewrite H. simpl. lia.
Qed.

Lemma process_sequence_processed_count l : forall s,
  processed_count (process_sequence R address s l)
  = processed_count s + count_of is_stored (outcomes R address (db s) l).
Proof.
  induction l as [|p l IH]; intros s.
  - simpl. unfold count_of. simpl. lia.
  - rewrite process_sequence_cons, IH, process_entry_processed_count,
      process_entry_db. simpl outcomes. rewrite count_of_cons. lia.
Qed.

Lemma row_of_event_data_transaction kw kw' :
  kw_log_index kw' = kw_log_index kw ->
  kw_event_name kw' = kw_event_name kw ->
  kw_contract_address kw' = kw_contract_address kw ->
  kw_event_from_address kw' = kw_event_from_address kw ->
  kw_event_to_address kw' = kw_event_to_address kw ->
  kw_event_amount kw' = kw_event_amount kw ->
  kw_event_sender_address kw' = kw_event_sender_address kw ->
  kw_event_onchain_timestamp kw' = kw_event_onchain_timestamp kw ->
  is_ok (row_of_event_data R kw') = is_ok (row_of_event_data R kw).
Proof.
  intros H1 H2 H3 H4 H5 H6 H7 H8. unfold row_of_event_data.
  rewrite H1, H2, H3, H4, H5, H6, H7, H8.
  repeat match goal with
  | |- context [result_bind ?r _] => destruct r; simpl; try reflexivity
  end.
Qed.

Lemma entry_row_is_ok name o t t' :
  is_ok (entry_row R address name o t') = is_ok (entry_row R address name o t).
Proof.
  unfold entry_row.
  destruct (decoded (entry o)) as [a|]; simpl; [|reflexivity].
  destruct (validate_transaction_hash _); simpl; [|reflexivity].
  destruct (validate_block_number _); simpl; [|reflexivity].
  unfold event_data_for_model.
  destruct (String.eqb name "TransactionSubmitted").
  - destruct (match dict_get a "amount" with VNone => _ | _ => _ end);
      simpl; [|reflexivity].
    apply row_of_event_data_transaction; reflexivity.
  - destruct (String.eqb name "ContractEvent"); simpl;
      apply row_of_event_data_transaction; reflexivity.
Qed.

Lemma well_formed_outcome name o d :
  well_formed R address name o = true ->
  if has_event d (transaction_hash (transaction_seen o (transactions d)),
                  logIndex (entry o))
  then entry_outcome R address name o d = Skipped
  else exists row,
         entry_row R address name o (transaction_seen o (transactions d)) = Ok row
         /\ entry_outcome R address name o d = Stored row.
Proof.
  unfold well_formed. rewrite !andb_true_iff. intros [[Hh Hb] Hrow].
  assert (Hstep : transaction_step_ok o (transactions d) = true).
  { unfold transaction_step_ok. rewrite Hh, Hb.
    destruct (transactions d !! _); [|reflexivity].
    destruct (_ <? _); reflexivity. }
  unfold entry_outcome. rewrite Hstep. simpl.
  destruct (has_event d _); [reflexivity|].
  rewrite (entry_row_is_ok name o
             (transaction_seen o (transactions d)) (first_seen o)) in Hrow.
  destruct (entry_row _ _ _ _ _) as [row|e]; [eauto|discriminate].
Qed.

Lemma transaction_seen_hash o d :
  pk_consistent d ->
  transaction_hash (transaction_seen o (transactions d))
  = transactionHash (entry o).
Proof.
  intros Hpk. unfold transaction_seen.
  destruct (transactions d !! transactionHash (entry o)) as [t|] eqn:E.
  - apply Hpk in E. simpl in E. destruct (_ <? _); simpl; exact E.
  - reflexivity.
Qed.

Lemma table_seen_observe o d :
  pk_consistent d ->
  table_seen o (transactions d)
  = observe_block (transactionHash (entry o)) (blockNumber (entry o))
      (clock o) (transactions d).
Proof.
  intros Hpk. unfold table_seen, observe_block, first_seen.
  destruct (transactions d !! transactionHash (entry o)) as [t|] eqn:E.
  - apply Hpk in E. simpl in E. rewrite E. reflexivity.
  - reflexivity.
Qed.

Lemma pk_consistent_observe h b now d :
  pk_consistent d ->
  map_Forall (fun h t => transaction_hash t = h)
    (observe_block h b now (transactions d)).
Proof.
  intros Hpk. unfold observe_block.
  destruct (transactions d !! h) as [t|] eqn:E.
  - destruct (_ <? _); [|exact Hpk].
    apply map_Forall_insert_2; [|exact Hpk]. simpl. apply (Hpk _ _ E).
  - apply map_Forall_insert_2; [reflexivity|exact Hpk].
Qed.

Lemma pk_consistent_committed o d :
  pk_consistent d -> pk_consistent (committed o d).
Proof.
  intros Hpk. unfold pk_consistent, committed. simpl.
  rewrite table_seen_observe by exact Hpk. now apply pk_consistent_observe.
Qed.

Lemma pk_consistent_db_after name o d :
  pk_consistent d -> pk_consistent (db_after R address name o d).
Proof.
  intros Hpk. unfold db_after.
  destruct (entry_outcome R address name o d); [| |exact Hpk].
  - apply (pk_consistent_committed o) in Hpk. exact Hpk.
  - now apply pk_consistent_committed.
Qed.

Lemma pk_consistent_db_sequence l : forall d,
  pk_consistent d -> pk_consistent (db_sequence R address d l).
Proof.
  induction l as [|p l IH]; intros d Hpk; [exact Hpk|].
  simpl. apply IH. now apply pk_consistent_db_after.
Qed.

Lemma observe_block_lookup_ne h b now m k :
  h <> k -> observe_block h b now m !! k = m !! k.
Proof.
  intros Hne. unfold observe_block.
  destruct (m !! h) as [t|].
  - destruct (_ <? _); [|reflexivity]. now rewrite lookup_insert_ne.
  - now rewrite lookup_insert_ne.
Qed.

Lemma observe_block_lookup_eq h b now m :
  observe_block h b now m !! h
  = Some (match m !! h with
          | None => {| transaction_hash := h; block_number := b;
                       created_at := now |}
          | Some t => if block_number t <? b then raise_block_number t b else t
          end).
Proof.
  unfold observe_block.
  destruct (m !! h) as [t|] eqn:E.
  - destruct (_ <? _); [|exact E]. now rewrite lookup_insert_eq.
  - now rewrite lookup_insert_eq.
Qed.

Lemma observe_block_frame h b now m k t :
  m !! k = Some t ->
  exists t',
    observe_block h b now m !! k = Some t'
    /\ transaction_hash t' = transaction_hash t
    /\ created_at t' = created_at t
    /\ block_number t <= block_number t'.
Proof.
  intros Hk. destruct (decide (h = k)) as [->|Hne].
  - rewrite observe_block_lookup_eq, Hk.
    destruct (block_number t <? b) eqn:L.
    + apply Z.ltb_lt in L. eexists. split; [reflexivity|]. simpl.
      repeat split; lia.
    + exists t. repeat split; lia.
  - rewrite observe_block_lookup_ne by exact Hne.
    exists t. repeat split; auto; lia.
Qed.

Lemma db_after_transactions name o d :
  pk_consistent d ->
  transactions (db_after R address name o d) = transactions d
  \/ transactions (db_after R address name o d)
     = observe_block (transactionHash (entry o)) (blockNumber (entry o))
         (clock o) (transactions d).
Proof.
  intros Hpk. unfold db_after.
  destruct (entry_outcome R address name o d); simpl;
    rewrite ?table_seen_observe by exact Hpk; auto.
Qed.

Lemma db_after_frame name o d k t :
  pk_consistent d ->
  transactions d !! k = Some t ->
  exists t',
    transactions (db_after R address name o d) !! k = Some t'
    /\ transaction_hash t' = transaction_hash t
    /\ created_at t' = created_at t
    /\ block_number t <= block_number t'.
Proof.
  intros Hpk Hk.
  destruct (db_after_transactions name o d Hpk) as [-> | ->].
  - exists t. repeat split; auto; lia.
  - now apply observe_block_frame.
Qed.

Lemma db_sequence_frame l : forall d h t,
  pk_consistent d ->
  transactions d !! h = Some t ->
  exists t',
    transactions (db_sequence R address d l) !! h = Some t'
    /\ transaction_hash t' = transaction_hash t
    /\ created_at t' = created_at t
    /\ block_number t <= block_number t'.
Proof.
  induction l as [|p l IH]; intros d h t Hpk Hstored; simpl.
  - exists t. repeat split; auto; lia.
  - destruct (db_after_frame (fst p) (snd p) d h t Hpk Hstored)
      as (t1 & H1 & Hh1 & Hc1 & Hb1).
    destruct (IH _ h t1 (pk_consistent_db_after _ _ d Hpk) H1)
      as (t2 & H2 & Hh2 & Hc2 & Hb2).
    exists t2. repeat split; [exact H2|congruence|congruence|lia].
Qed.

(** C9. Whatever entries are processed after a transaction row exists, the
    row is still there with the same hash and the same first-seen time; only
    its block number may have changed, and it has not gone down. *)
Theorem C9_only_block_number_changes
    (l : list (string * observation))
    (s : run_state) (h : string) (t : Transaction)
    (Hpk : pk_consistent (db s))
    (Hstored : transactions (db s) !! h = Some t) :
  exists t',
    transactions (db (process_sequence R address s l)) !! h = Some t'
    /\ transaction_hash t' = transaction_hash t
    /\ created_at t' = created_at t
    /\ block_number t <= block_number t'.
Proof.
  rewrite process_sequence_db. now apply db_sequence_frame.
Qed.

Lemma db_after_stored_block_other name o d k :
  pk_consistent d ->
  transactionHash (entry o) <> k ->
  stored_block (db_after R address name o d) k = stored_block d k.
Proof.
  intros Hpk Hne. unfold stored_block.
  destruct (db_after_transactions name o d Hpk) as [-> | ->];
    [reflexivity|].
  now rewrite observe_block_lookup_ne.
Qed.

Lemma observe_block_stored h b now m :
  block_number <$> observe_block h b now m !! h
  = merge_block (block_number <$> m !! h) b.
Proof.
  rewrite observe_block_lookup_eq.
  destruct (m !! h) as [t|]; simpl; [|reflexivity].
  destruct (block_number t <? b) eqn:L; simpl; f_equal.
  - apply Z.ltb_lt in L. lia.
  - apply Z.ltb_ge in L. lia.
Qed.

Lemma db_after_stored_block_well_formed name o d :
  pk_consistent d ->
  well_formed R address name o = true ->
  stored_block (db_after R address name o d) (transactionHash (entry o))
  = merge_block (stored_block d (transactionHash (entry o)))
      (blockNumber (entry o)).
Proof.
  intros Hpk Hwf. unfold stored_block.
  assert (transactions (db_after R address name o d)
          = observe_block (transactionHash (entry o)) (blockNumber (entry o))
              (clock o) (transactions d)) as ->.
  { pose proof (well_formed_outcome name o d Hwf) as H.
    unfold db_after. destruct (has_event d _).
    - rewrite H. simpl. now apply table_seen_observe.
    - destruct H as (row & _ & ->). simpl. now apply table_seen_observe. }
  apply observe_block_stored.
Qed.

Lemma db_sequence_stored_block h l : forall d,
  pk_consistent d ->
  (forall p, In p l -> transactionHash (entry (snd p)) = h ->
             well_formed R address (fst p) (snd p) = true) ->
  stored_block (db_sequence R address d l) h
  = fold_left merge_block (block_numbers_of h l) (stored_block d h).
Proof.
  induction l as [|p l IH]; intros d Hpk Hwf; [reflexivity|].
  simpl. rewrite IH.
  - unfold block_numbers_of. rewrite filter_cons.
    destruct (decide (transactionHash (entry (snd p)) = h)) as [E|E].
    + simpl. f_equal. subst h.
      apply db_after_stored_block_well_formed; [exact Hpk|].
      apply Hwf; [now left|reflexivity].
    + f_equal. now apply db_after_stored_block_other.
  - now apply pk_consistent_db_after.
  - intros q Hq. apply Hwf. now right.
Qed.

Lemma fold_merge_block_some bs : forall x,
  exists m,
    fold_left merge_block bs (Some x) = Some m
    /\ x <= m /\ (forall b, In b bs -> b <= m) /\ (m = x \/ In m bs).
Proof.
  induction bs as [|b bs IH]; intros x; simpl.
  - exists x. repeat split; auto; [lia|]. intros b [].
  - destruct (IH (Z.max x b)) as (m & Hm & Hle & Hall & Hin).
    exists m. repeat split; [exact Hm|lia| |].
    + intros c [<-|Hc]; [lia|auto].
    + destruct Hin as [->|Hin]; [|auto].
      destruct (Z.max_spec x b) as [[_ ->]|[_ ->]]; auto.
Qed.

Lemma fold_merge_block_maximum bs :
  bs <> [] ->
  exists m, fold_left merge_block bs None = Some m /\ is_maximum m bs.
Proof.
  destruct bs as [|b bs]; [congruence|]. intros _. simpl.
  destruct (fold_merge_block_some bs b) as (m & Hm & Hle & Hall & Hin).
  exists m. split; [exact Hm|]. split.
  - destruct Hin as [->|Hin]; [now left|now right].
  - intros c [<-|Hc]; auto.
Qed.

Lemma is_maximum_Permutation m bs bs' :
  Permutation bs bs' -> is_maximum m bs -> is_maximum m bs'.
Proof.
  intros HP [Hin Hall]. split.
  - eapply Permutation_in; eauto.
  - intros b Hb. apply Hall. eapply Permutation_in; [symmetry|]; eauto.
Qed.

Lemma block_numbers_of_Permutation h l l' :
  Permutation l l' ->
  Permutation (block_numbers_of h l) (block_numbers_of h l').
Proof.
  intros HP. unfold block_numbers_of. apply Permutation_map.
  now rewrite HP.
Qed.

(** C2. Take observations of a hash that is not stored yet, each of them
    acceptable to the atomic block, among any other entries.  In whatever
    order the sequence is processed, the stored block number of the hash is
    the maximum of the block numbers observed for it, and nothing processed
    later lowers it. *)
Theorem C2_block_number_is_maximum
    (h : string)
    (l l' : list (string * observation)) (s : run_state)
    (Hpk : pk_consistent (db s))
    (Hfresh : transactions (db s) !! h = None)
    (Horder : Permutation l l')
    (Hwf : forall p, In p l -> transactionHash (entry (snd p)) = h ->
                     well_formed R address (fst p) (snd p) = true)
    (Hsome : block_numbers_of h l <> []) :
  exists m,
    stored_block (db (process_sequence R address s l')) h = Some m
    /\ is_maximum m (block_numbers_of h l)
    /\ forall later,
         exists m',
           stored_block
             (db (process_sequence R address
                    (process_sequence R address s l') later)) h = Some m'
           /\ m <= m'.
Proof.
  assert (Hwf' : forall p, In p l' -> transactionHash (entry (snd p)) = h ->
                           well_formed R address (fst p) (snd p) = true).
  { intros p Hp. apply Hwf. eapply Permutation_in; [symmetry|]; eauto. }
  assert (Hsome' : block_numbers_of h l' <> []).
  { intros E. apply Hsome. apply Permutation_nil.
    rewrite <- E. symmetry. now apply block_numbers_of_Permutation. }
  destruct (fold_merge_block_maximum _ Hsome') as (m & Hm & Hmax).
  assert (Hstored : stored_block (db (process_sequence R address s l')) h
                    = Some m).
  { rewrite process_sequence_db, db_sequence_stored_block by assumption.
    unfold stored_block at 1. rewrite Hfresh. exact Hm. }
  exists m. split; [exact Hstored|]. split.
  - eapply is_maximum_Permutation; [|exact Hmax].
    symmetry. now apply block_numbers_of_Permutation.
  - intros later. unfold stored_block in *.
    destruct (transactions (db (process_sequence R address s l')) !! h)
      as [t|] eqn:Et; [|discriminate].
    injection Hstored as <-.
    rewrite (process_sequence_db later).
    destruct (db_sequence_frame later
                (db (process_sequence R address s l')) h t)
      as (t' & -> & _ & _ & Hb).
    + rewrite process_sequence_db. now apply pk_consistent_db_sequence.
    + exact Et.
    + exists (block_number t'). split; [reflexivity|exact Hb].
Qed.

Lemma entry_row_fields name o t row :
  entry_row R address name o t = Ok row ->
  exists a,
    decoded (entry o) = Ok a
    /\ transaction_id row = transaction_hash t
    /\ log_index row = logIndex (entry o)
    /\ event_name row = name
    /\ contract_address row = address
    /\ block_timestamp row = get_block_timestamp o (blockNumber (entry o))
    /\ is_fraudulent row = detect_fraud name (entry o) a
    /\ data row = json_dumps R a.
Proof.
  unfold entry_row. intros H.
  destruct (decoded (entry o)) as [a|]; simpl in H; [|discriminate].
  destruct (validate_transaction_hash _); simpl in H; [|discriminate].
  destruct (validate_block_number _); simpl in H; [|discriminate].
  destruct (event_data_for_model _ _ _ _ _ _ _ _) as [kw|] eqn:Hkw;
    simpl in H; [|discriminate].
  destruct (event_data_for_model_fields _ _ _ _ _ _ _ Hkw)
    as (K1 & K2 & K3 & K4 & K5 & K6 & K7).
  destruct (row_of_event_data_fields _ _ H)
    as (R1 & R2 & R3 & R4 & R5 & R6 & R7).
  exists a. repeat split; congruence.
Qed.

Lemma same_key_iff h idx e :
  same_key h idx e = true <-> transaction_id e = h /\ log_index e = idx.
Proof.
  unfold same_key. rewrite andb_true_iff, String.eqb_eq, Z.eqb_eq. tauto.
Qed.

Lemma filter_no_event (h : string) (idx : Z) (l : list ContractEvent) :
  existsb (same_key h idx) l = false ->
  filter (fun e => same_key h idx e = true) l = [].
Proof.
  induction l as [|e l IH]; simpl; [reflexivity|].
  intros H. apply orb_false_iff in H as [He Hl].
  rewrite filter_cons. destruct (decide _) as [E|E]; [congruence|]. auto.
Qed.

(** C1. An acceptable entry whose key is not stored yet is inserted by the
    first call; the same entry met again (in the same run or a later one,
    under any clock) is skipped as a duplicate, the second call changes
    nothing, and the only row stored for the key is the one the first call
    wrote. *)
Theorem C1_ingesting_twice
    (name : string) (o1 o2 : observation)
    (s s2 : run_state)
    (Hpk : pk_consistent (db s))
    (Hwf : well_formed R address name o1 = true)
    (Hfresh : has_event (db s) (key_of o1) = false)
    (Hsame : entry o2 = entry o1)
    (Hdb : db s2 = db (snd (ingest R address name o1 s))) :
  fst (ingest R address name o1 s) = Ok Inserted
  /\ fst (ingest R address name o2 s2) = Ok DuplicateSkipped
  /\ snd (ingest R address name o2 s2) = s2
  /\ exists row,
       entry_row R address name o1
         (transaction_seen o1 (transactions (db s))) = Ok row
       /\ filter (fun e => same_key (transactionHash (entry o1))
                             (logIndex (entry o1)) e = true)
            (events (db (snd (ingest R address name o1 s)))) = [row]
       /\ filter (fun e => same_key (transactionHash (entry o1))
                             (logIndex (entry o1)) e = true)
            (events (db (snd (ingest R address name o2 s2)))) = [row].
Proof.
  pose proof (transaction_seen_hash o1 (db s) Hpk) as Hseen.
  pose proof (well_formed_outcome name o1 (db s) Hwf) as Hout.
  rewrite Hseen in Hout. unfold key_of in Hfresh. rewrite Hfresh in Hout.
  destruct Hout as (row & Hrow & Hout).
  pose proof (ingest_spec name o1 s) as H1. rewrite Hout in H1.
  rewrite H1 in Hdb |- *. simpl in Hdb |- *.
  destruct (entry_row_fields _ _ _ _ Hrow) as (a & _ & Hid & Hidx & _).
  rewrite Hseen in Hid.
  assert (Hkey : same_key (transactionHash (entry o1)) (logIndex (entry o1)) row
                 = true) by (apply same_key_iff; auto).
  assert (Hfilter :
            filter (fun e => same_key (transactionHash (entry o1))
                               (logIndex (entry o1)) e = true)
              (events (db s) ++ [row])%list = [row]).
  { rewrite filter_app, filter_no_event by exact Hfresh. simpl.
    rewrite filter_cons. destruct (decide _) as [E|E]; [reflexivity|congruence]. }
  (* the second call *)
  assert (Hlook : transactions (db s2) !! transactionHash (entry o2)
                  = Some (transaction_seen o1 (transactions (db s)))).
  { rewrite Hdb, Hsame. simpl. rewrite (table_seen_observe o1 (db s) Hpk).
    rewrite observe_block_lookup_eq. unfold transaction_seen, first_seen.
    reflexivity. }
  assert (Hblock : (block_number (transaction_seen o1 (transactions (db s)))
                    <? blockNumber (entry o2)) = false).
  { rewrite Hsame. apply Z.ltb_ge. unfold transaction_seen.
    destruct (transactions (db s) !! _) as [t|]; simpl; [|lia].
    destruct (block_number t <? _) eqn:L; simpl; [lia|].
    now apply Z.ltb_ge in L. }
  assert (Hseen2 : transaction_seen o2 (transactions (db s2))
                   = transaction_seen o1 (transactions (db s))).
  { unfold transaction_seen at 1. now rewrite Hlook, Hblock. }
  assert (Hcommit : committed o2 (db s2) = db s2).
  { unfold committed, table_seen. rewrite Hlook, Hblock. now destruct (db s2). }
  assert (Hout2 : entry_outcome R address name o2 (db s2) = Skipped).
  { unfold entry_outcome, transaction_step_ok. rewrite Hlook, Hblock, Hseen2.
    rewrite Hseen, Hsame. unfold has_event. rewrite Hdb. simpl.
    rewrite existsb_app. simpl. rewrite Hkey.
    now rewrite orb_true_r. }
  pose proof (ingest_spec name o2 s2) as H2. rewrite Hout2 in H2.
  rewrite H2, Hcommit. simpl.
  split; [reflexivity|]. split; [reflexivity|]. split; [now destruct s2|].
  exists row. split; [exact Hrow|]. split; [exact Hfilter|].
  rewrite Hdb. exact Hfilter.
Qed.

Lemma db_sequence_app d l1 l2 :
  db_sequence R address d (l1 ++ l2)
  = db_sequence R address (db_sequence R address d l1) l2.
Proof. unfold db_sequence. apply fold_left_app. Qed.

Lemma outcomes_app l1 l2 : forall d,
  outcomes R address d (l1 ++ l2)
  = (outcomes R address d l1
     ++ outcomes R address (db_sequence R address d l1) l2)%list.
Proof.
  induction l1 as [|p l1 IH]; intros d; [reflexivity|].
  simpl. now rewrite IH.
Qed.

Lemma count_of_app p l1 l2 :
  count_of p (l1 ++ l2) = count_of p l1 + count_of p l2.
Proof.
  unfold count_of. rewrite filter_app, length_app. lia.
Qed.

Lemma ingest_raises_outcome name o s e :
  fst (ingest R address name o s) = Raise e ->
  entry_outcome R address name o (db s) = Failed e.
Proof.
  intros H. pose proof (ingest_spec name o s) as Hs.
  destruct (entry_outcome R address name o (db s)).
  - rewrite Hs in H. discriminate.
  - rewrite Hs in H. discriminate.
  - destruct Hs as (fc & _ & Hs). rewrite Hs in H. simpl in H. congruence.
Qed.

Lemma db_after_well_formed_fresh name o d :
  pk_consistent d ->
  well_formed R address name o = true ->
  has_event d (key_of o) = false ->
  is_stored (entry_outcome R address name o d) = true
  /\ forall k,
       has_event (db_after R address name o d) k
       = has_event d k || bool_decide (k = key_of o).
Proof.
  intros Hpk Hwf Hfresh.
  pose proof (transaction_seen_hash o d Hpk) as Hseen.
  pose proof (well_formed_outcome name o d Hwf) as Hout.
  rewrite Hseen in Hout. unfold key_of in Hfresh. rewrite Hfresh in Hout.
  destruct Hout as (row & Hrow & Hout).
  unfold db_after. rewrite Hout. split; [reflexivity|].
  intros [h idx]. unfold has_event, key_of. simpl. rewrite existsb_app. simpl.
  rewrite orb_false_r. f_equal.
  destruct (entry_row_fields _ _ _ _ Hrow) as (a & _ & Hid & Hidx & _).
  rewrite Hseen in Hid.
  apply eq_true_iff_eq. rewrite same_key_iff, bool_decide_eq_true.
  rewrite Hid, Hidx. split.
  - intros [-> ->]. reflexivity.
  - intros E. injection E as -> ->. auto.
Qed.

Lemma well_formed_batch name l : forall d,
  pk_consistent d ->
  Forall (fun o => well_formed R address name o = true) l ->
  NoDup (map key_of l) ->
  Forall (fun o => has_event d (key_of o) = false) l ->
  count_of is_stored (outcomes R address d (map (pair name) l))
  = Z.of_nat (length l)
  /\ forall k,
       has_event (db_sequence R address d (map (pair name) l)) k
       = has_event d k || bool_decide (k ∈ map key_of l).
Proof.
  induction l as [|o l IH]; intros d Hpk Hwf Hnodup Hfresh.
  - split; [reflexivity|]. intros k. simpl. now rewrite orb_false_r.
  - inversion Hwf as [|? ? Hwo Hwl]; subst.
    inversion Hnodup as [|? ? Hnotin Hnd]; subst.
    inversion Hfresh as [|? ? Hfo Hfl]; subst.
    destruct (db_after_well_formed_fresh name o d Hpk Hwo Hfo)
      as (Hst & Hev).
    destruct (IH (db_after R address name o d)) as (Hcount & Hrest).
    + now apply pk_consistent_db_after.
    + exact Hwl.
    + exact Hnd.
    + rewrite Forall_forall in Hfl |- *. intros o' Ho'.
      rewrite Hev, (Hfl o' Ho'). simpl.
      apply bool_decide_eq_false. intros E. apply Hnotin.
      rewrite <- E. apply list_elem_of_In, in_map. now apply list_elem_of_In.
    + split.
      * simpl map. simpl outcomes. rewrite count_of_cons. simpl fst. simpl snd.
        rewrite Hst, Hcount. simpl length. simpl Z.b2z. lia.
      * intros k. simpl. rewrite Hrest, Hev, <- orb_assoc. f_equal.
        apply eq_true_iff_eq.
        rewrite orb_true_iff, !bool_decide_eq_true, elem_of_cons. tauto.
Qed.

(** C7. In a batch where one entry raises and the others are acceptable,
    with keys distinct and not stored yet, the loop goes on: every other
    entry is stored, the inserted count grows by the size of the batch minus
    one, and the database is the one the batch without the failing entry
    leaves. *)
Theorem C7_one_failing_entry
    (name : string) (s : run_state)
    (l1 l2 : list observation) (k : observation) (e : exn)
    (Hpk : pk_consistent (db s))
    (Hwf : Forall (fun o => well_formed R address name o = true) (l1 ++ l2))
    (Hdistinct : NoDup (map key_of (l1 ++ l2)))
    (Hfresh : Forall (fun o => has_event (db s) (key_of o) = false) (l1 ++ l2))
    (Hfails : fst (ingest R address name k
                     (process_events R address name s l1)) = Raise e) :
  processed_count (process_events R address name s (l1 ++ k :: l2))
  = processed_count s + (Z.of_nat (length (l1 ++ k :: l2)) - 1)
  /\ Forall (fun o => has_event
                        (db (process_events R address name s (l1 ++ k :: l2)))
                        (key_of o) = true) (l1 ++ l2)
  /\ db (process_events R address name s (l1 ++ k :: l2))
     = db (process_events R address name s (l1 ++ l2)).
Proof.
  apply ingest_raises_outcome in Hfails.
  rewrite process_events_sequence, process_sequence_db in Hfails.
  assert (Hdb : db (process_events R address name s (l1 ++ k :: l2))
                = db (process_events R address name s (l1 ++ l2))).
  { rewrite !process_events_sequence, !process_sequence_db, !map_app.
    rewrite !db_sequence_app. simpl. unfold db_after at 1. simpl.
    now rewrite Hfails. }
  destruct (well_formed_batch name (l1 ++ l2) (db s)
              Hpk Hwf Hdistinct Hfresh) as (Hcount & Hev).
  split; [|split; [|exact Hdb]].
  - rewrite process_events_sequence, process_sequence_processed_count.
    rewrite map_app, outcomes_app, count_of_app. simpl.
    rewrite count_of_cons. unfold db_after at 1. simpl. rewrite Hfails. simpl.
    rewrite map_app, outcomes_app, count_of_app in Hcount.
    rewrite !length_app in *. simpl. lia.
  - rewrite Hdb, process_events_sequence, process_sequence_db.
    rewrite Forall_forall. intros o Ho. rewrite Hev.
    rewrite (bool_decide_eq_true_2 (key_of o ∈ map key_of (l1 ++ l2))).
    + apply orb_true_r.
    + apply list_elem_of_In, in_map. now apply list_elem_of_In.
Qed.

(** *** The payload *)

Lemma json_round_trip_value (v : value) :
  json_native v = true -> json_decode (json_encode R v) = v.
Proof. destruct v; simpl; congruence. Qed.

Lemma json_round_trip (a : args) :
  map_Forall (fun _ v => json_native v = true) a ->
  json_loads (json_dumps R a) = a.
Proof.
  intros Hnative. unfold json_loads, json_dumps. apply map_eq. intros k.
  rewrite !lookup_fmap.
  destruct (a !! k) as [v|] eqn:E; simpl; [|reflexivity].
  f_equal. apply json_round_trip_value. exact (Hnative k v E).
Qed.

(** C4, as the code has it.  The payload stored with an inserted event is
    the JSON object with the keys of the decoded arguments; [None], booleans,
    integers of any size and texts are stored as the JSON values of the same
    kind (an integer stays a number, it is not turned into text), and a value
    of another kind (bytes) is stored as the text [str] gives for it.  When
    all decoded values are [None], booleans, integers or texts, reading the
    payload back gives the decoded arguments exactly. *)
Theorem C4_payload_keeps_native_values
    (name : string) (o : observation) (t : Transaction) (row : ContractEvent)
    (a : args)
    (Hrow : entry_row R address name o t = Ok row)
    (Hdecoded : decoded (entry o) = Ok a) :
  data row = json_dumps R a
  /\ (forall k, data row !! k = json_encode R <$> a !! k)
  /\ (forall k n, a !! k = Some (VInt n) -> data row !! k = Some (JNumber n))
  /\ (forall k b, a !! k = Some (VBytes b) ->
                  data row !! k = Some (JString (str_of_bytes R b)))
  /\ (map_Forall (fun _ v => json_native v = true) a ->
      json_loads (data row) = a).
Proof.
  destruct (entry_row_fields _ _ _ _ Hrow) as (a' & Ha' & _ & _ & _ & _ & _ & _ & Hdata).
  assert (a' = a) as -> by congruence.
  assert (Hk : forall k, data row !! k = json_encode R <$> a !! k).
  { intros k. rewrite Hdata. unfold json_dumps. apply lookup_fmap. }
  split; [exact Hdata|]. split; [exact Hk|]. split; [|split].
  - intros k n E. now rewrite Hk, E.
  - intros k b E. now rewrite Hk, E.
  - intros Hnative. rewrite Hdata. now apply json_round_trip.
Qed.

(** *** The run *)

Lemma poll_event_type_skips (N : node) (from_block to_block : Z)
    (s : run_state) (name : string) :
  (get_all_entries N name from_block to_block = NotInAbi
   \/ exists e, get_all_entries N name from_block to_block = FetchRaises e) ->
  poll_event_type R address N from_block to_block s name = s.
Proof.
  unfold poll_event_type. intros [-> | [e ->]]; reflexivity.
Qed.

Lemma process_sequence_fraud_detected_count l : forall s,
  exists extra,
    0 <= extra
    /\ ((forall r, In r (outcomes R address (db s) l) ->
                   forall e, r <> Failed e) -> extra = 0)
    /\ fraud_detected_count (process_sequence R address s l)
       = fraud_detected_count s
         + count_of is_flagged (outcomes R address (db s) l) + extra.
Proof.
  induction l as [|p l IH]; intros s.
  - exists 0. repeat split; try lia. simpl. unfold count_of. simpl. lia.
  - rewrite process_sequence_cons.
    destruct (process_entry_fraud_detected_count (fst p) s (snd p))
      as (x & Hx & Hstored & Hskipped & Heq).
    destruct (IH (process_entry R address (fst p) s (snd p)))
      as (y & Hy & Hnone & Heq').
    rewrite process_entry_db in Hnone, Heq'.
    exists (x + y). simpl outcomes. rewrite count_of_cons.
    split; [lia|]. split; [|lia].
    intros Hok.
    assert (y = 0) as ->.
    { apply Hnone. intros r Hr. apply Hok. now right. }
    assert (x = 0) as ->; [|reflexivity].
    destruct (entry_outcome R address (fst p) (snd p) (db s)) eqn:E.
    + now apply Hstored.
    + now apply Hskipped.
    + exfalso. apply (Hok (Failed e) (or_introl eq_refl) e). reflexivity.
Qed.

Lemma poll_event_type_sequence (N : node) (from_block to_block : Z)
    (s : run_state) (name : string) :
  poll_event_type R address N from_block to_block s name
  = process_sequence R address s (fetched_entries N from_block to_block name).
Proof.
  unfold poll_event_type, fetched_entries.
  destruct (get_all_entries N name from_block to_block); try reflexivity.
  apply process_events_sequence.
Qed.

(** C8. Once the set-up has succeeded, a run in which the query for one of
    the two event types fails (the node refuses it, or the event is not in
    the ABI) still ends with a summary: that type is skipped, and the counts
    and the database are those that processing the entries of the other type
    gives. *)
Theorem C8_fetch_failure_skips_one_type
    (S : settings) (N : node) (start_block_offset latest : Z) (d : database)
    (failing other : string) (l : list observation)
    (Haddress : not_set (TRANSACTION_CONTRACT_ADDRESS S) = false)
    (Habi : not_set (TRANSACTION_CONTRACT_ABI_PATH S) = false)
    (Hconnected : is_connected N = Ok true)
    (Hcontract : load_contract N = Ok address)
    (Hlatest : block_number_now N = Ok latest)
    (Hnames : (failing = "TransactionSubmitted" /\ other = "ContractEvent")
              \/ (failing = "ContractEvent" /\ other = "TransactionSubmitted"))
    (Hfails :
       get_all_entries N failing (Z.max 0 (latest - start_block_offset)) latest
       = NotInAbi
       \/ exists e,
            get_all_entries N failing
              (Z.max 0 (latest - start_block_offset)) latest = FetchRaises e)
    (Hfetched :
       get_all_entries N other (Z.max 0 (latest - start_block_offset)) latest
       = Entries l) :
  poll_contract_events R S N start_block_offset d
  = (Summary
       (processed_count (process_events R address other (initial_state d) l))
       (fraud_detected_count
          (process_events R address other (initial_state d) l)),
     db (process_events R address other (initial_state d) l)).
Proof.
  unfold poll_contract_events.
  rewrite Haddress, Habi, Hconnected, Hcontract, Hlatest. simpl.
  destruct Hnames as [[-> ->] | [-> ->]].
  - rewrite (poll_event_type_skips N _ _ _ "TransactionSubmitted" Hfails).
    unfold poll_event_type. rewrite Hfetched. reflexivity.
  - rewrite (poll_event_type_skips N _ _ _ "ContractEvent" Hfails).
    unfold poll_event_type. rewrite Hfetched. reflexivity.
Qed.

End Ingestion.

(** ** Whole runs *)

(** A run is fatal before anything is written, or it is the sequence of the
    entries fetched for the two event types. *)
Lemma poll_contract_events_sequence (R : runtime) (S : settings) (N : node)
    (start_block_offset : Z) (d : database) :
  snd (poll_contract_events R S N start_block_offset d) = d
  \/ exists address l,
       poll_contract_events R S N start_block_offset d
       = (Summary
            (processed_count
               (process_sequence R address (initial_state d) l))
            (fraud_detected_count
               (process_sequence R address (initial_state d) l)),
          db (process_sequence R address (initial_state d) l)).
Proof.
  unfold poll_contract_events.
  destruct (not_set _ || not_set _); [now left|].
  destruct (is_connected N) as [[|]|]; try now left.
  destruct (load_contract N) as [address|]; [|now left].
  destruct (block_number_now N) as [latest|]; [|now left].
  right. exists address.
  exists (fetched_entries N (Z.max 0 (latest - start_block_offset)) latest
            "TransactionSubmitted"
          ++ fetched_entries N (Z.max 0 (latest - start_block_offset)) latest
               "ContractEvent")%list.
  simpl. rewrite !poll_event_type_sequence, <- process_sequence_app.
  reflexivity.
Qed.

(** A run leaves every stored transaction in place, with its hash and its
    first-seen time. *)
Lemma poll_contract_events_frame (R : runtime) (S : settings) (N : node)
    (start_block_offset : Z) (d : database) (h : string) (t : Transaction) :
  pk_consistent d ->
  transactions d !! h = Some t ->
  exists t',
    transactions (snd (poll_contract_events R S N start_block_offset d)) !! h
    = Some t'
    /\ transaction_hash t' = transaction_hash t
    /\ created_at t' = created_at t
    /\ block_number t <= block_number t'.
Proof.
  intros Hpk Hstored.
  destruct (poll_contract_events_sequence R S N start_block_offset d)
    as [-> | (address & l & ->)].
  - exists t. repeat split; auto; lia.
  - simpl. rewrite process_sequence_db. now apply db_sequence_frame.
Qed.

(** ** The claims at sample inputs *)

(** C3. The flagged counter is at one although nothing was inserted: a
    message with the suspicious phrase raises the verdict, the counter is
    incremented, and the row is then refused because the on-chain timestamp
    2^64 does not fit its column.  No inserted entry has a true verdict. *)
Theorem C3_flagged_counts_an_entry_that_failed :
  entry_outcome sample_runtime sample_address "ContractEvent"
    overflowing_entry empty_db = Failed DataError
  /\ poll_contract_events sample_runtime sample_settings
       (sample_node overflowing_fetch) 100 empty_db
     = (Summary 0 1, empty_db)
  /\ count_of is_flagged
       (outcomes sample_runtime sample_address empty_db
          [("ContractEvent", overflowing_entry)]) = 0.
Proof.
  split; [vm_compute; reflexivity|].
  split; [vm_compute; reflexivity|].
  vm_compute. reflexivity.
Qed.

(** C4, as stated, fails: the integer 10^24 + 1 is stored as a JSON number,
    not as the text of its decimal digits. *)
Lemma C4_large_integer_is_not_stored_as_text :
  json_dumps sample_runtime (transfer_args (10 ^ 24 + 1)) !! "amount"
  = Some (JNumber 1000000000000000000000001)
  /\ str_of_int (10 ^ 24 + 1) = "1000000000000000000000001"
  /\ json_dumps sample_runtime (transfer_args (10 ^ 24 + 1)) !! "amount"
     <> Some (JString (str_of_int (10 ^ 24 + 1))).
Proof.
  split; [vm_compute; reflexivity|].
  split; [vm_compute; reflexivity|].
  vm_compute. discriminate.
Qed.

Lemma pk_consistent_empty_db : pk_consistent empty_db.
Proof. apply map_Forall_empty. Qed.

Lemma transfer_args_native (n : Z) :
  map_Forall (fun _ v => json_native v = true) (transfer_args n).
Proof.
  unfold transfer_args.
  repeat (apply map_Forall_insert_2; [reflexivity|]).
  apply map_Forall_empty.
Qed.

Lemma C4_payload_keeps_native_values_witness :
  exists row,
    entry_row sample_runtime sample_address "TransactionSubmitted"
      (transfer_entry 100 0) (first_seen (transfer_entry 100 0)) = Ok row
    /\ data row !! "amount" = Some (JNumber (10 ^ 24 + 1))
    /\ json_loads (data row) = transfer_args (10 ^ 24 + 1).
Proof.
  destruct (entry_row sample_runtime sample_address "TransactionSubmitted"
              (transfer_entry 100 0) (first_seen (transfer_entry 100 0)))
    as [row|e] eqn:E; [|vm_compute in E; discriminate].
  exists row. split; [reflexivity|].
  destruct (C4_payload_keeps_native_values sample_runtime sample_address
              "TransactionSubmitted" (transfer_entry 100 0)
              (first_seen (transfer_entry 100 0)) row
              (transfer_args (10 ^ 24 + 1)) E eq_refl)
    as (_ & _ & Hint & _ & Hback).
  split.
  - apply Hint. reflexivity.
  - apply Hback. apply transfer_args_native.
Defined.

Lemma C1_ingesting_twice_witness :
  fst (ingest sample_runtime sample_address "TransactionSubmitted"
         (transfer_entry 100 0) (initial_state empty_db)) = Ok Inserted
  /\ fst (ingest sample_runtime sample_address "TransactionSubmitted"
            (observed 100 0 (Ok (transfer_args (10 ^ 24 + 1))) 1700000600)
            (initial_state
               (db (snd (ingest sample_runtime sample_address
                           "TransactionSubmitted" (transfer_entry 100 0)
                           (initial_state empty_db))))))
     = Ok DuplicateSkipped.
Proof.
  destruct (C1_ingesting_twice sample_runtime sample_address
              "TransactionSubmitted" (transfer_entry 100 0)
              (observed 100 0 (Ok (transfer_args (10 ^ 24 + 1))) 1700000600)
              (initial_state empty_db)
              (initial_state
                 (db (snd (ingest sample_runtime sample_address
                             "TransactionSubmitted" (transfer_entry 100 0)
                             (initial_state empty_db))))))
    as (H1 & H2 & _).
  - exact pk_consistent_empty_db.
  - vm_compute. reflexivity.
  - reflexivity.
  - reflexivity.
  - reflexivity.
  - split; [exact H1|exact H2].
Defined.

Lemma C2_block_number_is_maximum_witness :
  exists m,
    stored_block
      (db (process_sequence sample_runtime sample_address
             (initial_state empty_db)
             [("ContractEvent",
               observed 105 1 (Ok (message_args "hello world" 1690000000))
                 1700000000);
              ("TransactionSubmitted", transfer_entry 100 0)])) hash_a
    = Some m
    /\ is_maximum m [100; 105].
Proof.
  destruct (C2_block_number_is_maximum sample_runtime sample_address hash_a
              [("TransactionSubmitted", transfer_entry 100 0);
               ("ContractEvent",
                observed 105 1 (Ok (message_args "hello world" 1690000000))
                  1700000000)]
              [("ContractEvent",
                observed 105 1 (Ok (message_args "hello world" 1690000000))
                  1700000000);
               ("TransactionSubmitted", transfer_entry 100 0)]
              (initial_state empty_db))
    as (m & Hm & Hmax & _).
  - exact pk_consistent_empty_db.
  - reflexivity.
  - apply perm_swap.
  - intros p [<- | [<- | []]] _; vm_compute; reflexivity.
  - vm_compute. discriminate.
  - exists m. split; [exact Hm|exact Hmax].
Defined.

Lemma C7_one_failing_entry_witness :
  processed_count
    (process_events sample_runtime sample_address "TransactionSubmitted"
       (initial_state empty_db)
       [transfer_entry 100 0; undecodable_entry; transfer_entry 100 1])
  = 2.
Proof.
  destruct (C7_one_failing_entry sample_runtime sample_address
              "TransactionSubmitted" (initial_state empty_db)
              [transfer_entry 100 0] [transfer_entry 100 1]
              undecodable_entry DecodeError)
    as (Hcount & _ & _).
  - exact pk_consistent_empty_db.
  - repeat constructor.
  - refine (bool_decide_unpack _ _). vm_compute. exact I.
  - repeat constructor.
  - vm_compute. reflexivity.
  - exact Hcount.
Defined.

Lemma C8_fetch_failure_skips_one_type_witness :
  fst (poll_contract_events sample_runtime sample_settings
         (sample_node one_type_down) 100 empty_db)
  = Summary 1 0.
Proof.
  rewrite (C8_fetch_failure_skips_one_type sample_runtime sample_address
             sample_settings (sample_node one_type_down) 100 120 empty_db
             "TransactionSubmitted" "ContractEvent"
             [observed 100 1 (Ok (message_args "hello world" 1690000000))
                1700000000]).
  - vm_compute. reflexivity.
  - reflexivity.
  - reflexivity.
  - reflexivity.
  - reflexivity.
  - reflexivity.
  - left. split; reflexivity.
  - right. exists ConnectivityError. reflexivity.
  - reflexivity.
Defined.

Lemma C9_only_block_number_changes_witness :
  exists t',
    transactions
      (db (process_sequence sample_runtime sample_address
             (process_entry sample_runtime sample_address
                "TransactionSubmitted" (initial_state empty_db)
                (transfer_entry 100 0))
             [("ContractEvent",
               observed 105 1 (Ok (message_args "hello world" 1690000000))
                 1700000900)])) !! hash_a = Some t'
    /\ transaction_hash t' = hash_a
    /\ created_at t' = 1700000000
    /\ 100 <= block_number t'.
Proof.
  apply (C9_only_block_number_changes sample_runtime sample_address
           [("ContractEvent",
             observed 105 1 (Ok (message_args "hello world" 1690000000))
               1700000900)]
           (process_entry sample_runtime sample_address
              "TransactionSubmitted" (initial_state empty_db)
              (transfer_entry 100 0))
           hash_a
           {| transaction_hash := hash_a; block_number := 100;
              created_at := 1700000000 |}).
  - rewrite process_entry_db. apply pk_consistent_db_after.
    exact pk_consistent_empty_db.
  - vm_compute. reflexivity.
Defined.

(** * Further properties *)

(** ** Validators *)

Lemma N_of_ascii_eq (c : ascii) (n : N) :
  (N_of_ascii c =? n)%N = true -> c = ascii_of_N n.
Proof.
  intros H. apply N.eqb_eq in H. rewrite <- H. symmetry.
  apply ascii_N_embedding.
Qed.

Lemma string_app_cons (c : ascii) (s t : string) :
  String.append (String c s) t = String c (String.append s t).
Proof. reflexivity. Qed.

Lemma string_app_nil_r (s : string) : String.append s EmptyString = s.
Proof.
  induction s as [|c s IH]; [reflexivity|]. now rewrite string_app_cons, IH.
Qed.

Lemma string_app_assoc (a b c : string) :
  String.append (String.append a b) c = String.append a (String.append b c).
Proof.
  induction a as [|x a IH]; [reflexivity|]. now rewrite !string_app_cons, IH.
Qed.

Lemma length_string_app (a b : string) :
  String.length (String.append a b) = (String.length a + String.length b)%nat.
Proof.
  induction a as [|x a IH]; [reflexivity|].
  rewrite string_app_cons. simpl. now rewrite IH.
Qed.

Lemma hex_run_spec (n : nat) : forall s tail,
  hex_run n s = Some tail
  <-> exists digits,
        String.length digits = n /\ all_hex digits = true
        /\ s = String.append digits tail.
Proof.
  induction n as [|n IH]; intros s tail; simpl.
  - split.
    + intros [= ->]. exists EmptyString. auto.
    + intros (digits & Hlen & _ & ->).
      destruct digits; [reflexivity|discriminate].
  - destruct s as [|c s].
    + split; [discriminate|]. intros (digits & Hlen & _ & H).
      destruct digits; discriminate.
    + destruct (is_hex_digit c) eqn:Hc.
      * rewrite IH. split.
        -- intros (digits & Hlen & Hhex & ->).
           exists (String c digits). simpl. rewrite Hc, Hhex, Hlen. auto.
        -- intros (digits & Hlen & Hhex & H).
           destruct digits as [|c' digits]; [discriminate|].
           rewrite string_app_cons in H. injection H as <- ->.
           simpl in Hlen, Hhex. injection Hlen as Hlen.
           apply andb_true_iff in Hhex as [_ Hhex]. eauto.
      * split; [discriminate|]. intros (digits & Hlen & Hhex & H).
        destruct digits as [|c' digits]; [discriminate|].
        rewrite string_app_cons in H. injection H as <- ->.
        simpl in Hhex. rewrite Hc in Hhex. discriminate.
Qed.

Lemma at_dollar_spec (s : string) :
  at_dollar s = true <-> s = EmptyString \/ s = newline.
Proof.
  unfold at_dollar, newline.
  destruct s as [|c [|c' s]].
  - split; auto.
  - split.
    + intros H. right. now rewrite (N_of_ascii_eq _ _ H).
    + intros [H|H]; [discriminate|]. injection H as ->. reflexivity.
  - split; [discriminate|]. intros [H|H]; discriminate.
Qed.

Lemma re_match_0x_hex_prefixed (n : nat) (rest : string) :
  re_match_0x_hex n (String.append "0x" rest)
  = match hex_run n rest with
    | Some tail => at_dollar tail
    | None => false
    end.
Proof. reflexivity. Qed.

Lemma re_match_0x_hex_spec (n : nat) (s : string) :
  re_match_0x_hex n s = true
  <-> hex_literal n s
      \/ exists s0, hex_literal n s0 /\ s = String.append s0 newline.
Proof.
  unfold hex_literal. split.
  - unfold re_match_0x_hex.
    destruct s as [|c0 [|c1 rest]]; try discriminate.
    rewrite !andb_true_iff. intros [[H0 H1] H].
    apply N_of_ascii_eq in H0, H1. subst c0 c1.
    destruct (hex_run n rest) as [tail|] eqn:Hrun; [|discriminate].
    apply hex_run_spec in Hrun as (digits & Hlen & Hhex & ->).
    apply at_dollar_spec in H as [-> | ->].
    + left. exists digits. rewrite string_app_nil_r. auto.
    + right. exists (String.append "0x" digits). split; [eauto|reflexivity].
  - assert (Hgo : forall digits tail,
               String.length digits = n -> all_hex digits = true ->
               at_dollar tail = true ->
               re_match_0x_hex n
                 (String.append "0x" (String.append digits tail)) = true).
    { intros digits tail Hlen Hhex Htail. rewrite re_match_0x_hex_prefixed.
      assert (hex_run n (String.append digits tail) = Some tail) as ->.
      { apply hex_run_spec. eauto. }
      exact Htail. }
    intros [(digits & Hlen & Hhex & ->) | (s0 & (digits & Hlen & Hhex & ->) & ->)].
    + rewrite <- (string_app_nil_r digits). now apply Hgo.
    + rewrite string_app_assoc. now apply Hgo.
Qed.

Lemma hex_literal_length (n : nat) (s : string) :
  hex_literal n s -> String.length s = (2 + n)%nat.
Proof.
  intros (digits & Hlen & _ & ->). rewrite length_string_app, Hlen. reflexivity.
Qed.

Lemma validator_accepts (n : nat) (s : string) :
  (if negb (re_match_0x_hex n s) then Raise ValidationError else Ok tt)
  = Ok tt
  <-> re_match_0x_hex n s = true.
Proof. destruct (re_match_0x_hex n s); simpl; split; congruence. Qed.

(** X1. The hash validator accepts exactly [0x] followed by 64 hexadecimal
    digits, with or without one final newline (the [$] of the pattern), and
    the address validator the same with 40 digits; no text passes both. *)
Theorem validators_accept_hex_literals :
  (forall s,
     validate_transaction_hash s = Ok tt
     <-> hex_literal 64 s
         \/ exists s0, hex_literal 64 s0 /\ s = String.append s0 newline)
  /\ (forall s,
        validate_blockchain_address s = Ok tt
        <-> hex_literal 40 s
            \/ exists s0, hex_literal 40 s0 /\ s = String.append s0 newline)
  /\ (forall s,
        validate_blockchain_address s = Ok tt ->
        validate_transaction_hash s = Raise ValidationError).
Proof.
  pose proof validator_accepts as Hv.
  assert (Hlen : forall n s, re_match_0x_hex n s = true ->
             String.length s = (2 + n)%nat \/ String.length s = (3 + n)%nat).
  { intros n s H. apply re_match_0x_hex_spec in H as [H | (s0 & H & ->)].
    - left. now apply hex_literal_length.
    - right. rewrite length_string_app, (hex_literal_length n s0 H).
      unfold newline. simpl. lia. }
  split; [|split].
  - intros s. unfold validate_transaction_hash.
    rewrite Hv. apply re_match_0x_hex_spec.
  - intros s. unfold validate_blockchain_address.
    rewrite Hv. apply re_match_0x_hex_spec.
  - intros s Ha. unfold validate_blockchain_address in Ha. apply Hv in Ha.
    unfold validate_transaction_hash.
    destruct (re_match_0x_hex 64 s) eqn:Hh; [|reflexivity]. exfalso.
    apply Hlen in Ha, Hh. lia.
Qed.

(** ** The classifier and one entry *)

(** X2. A true verdict is only ever given under one of the two polled event
    names, and never on empty decoded arguments. *)
Theorem detect_fraud_only_polled_types
    (name : string) (log : event_log) (a : args)
    (Hflagged : detect_fraud name log a = true) :
  (name = "TransactionSubmitted" \/ name = "ContractEvent") /\ a <> ∅.
Proof.
  unfold detect_fraud in Hflagged.
  destruct (dict_truthy a) eqn:Ht.
  - split.
    + destruct (String.eqb name "TransactionSubmitted") eqn:E1.
      * left. now apply String.eqb_eq.
      * destruct (String.eqb name "ContractEvent") eqn:E2.
        -- right. now apply String.eqb_eq.
        -- simpl in Hflagged. discriminate.
    + unfold dict_truthy in Ht. apply negb_true_iff, bool_decide_eq_false in Ht.
      exact Ht.
  - rewrite !andb_false_r in Hflagged. discriminate.
Qed.

(** X3. When the body of the inner [try] raises, the database and the inserted
    count are as before; only the flagged count may have moved, by one. *)
Theorem ingest_is_atomic
    (R : runtime) (address name : string) (o : observation) (s : run_state)
    (e : exn)
    (Hraises : fst (ingest R address name o s) = Raise e) :
  db (snd (ingest R address name o s)) = db s
  /\ processed_count (snd (ingest R address name o s)) = processed_count s
  /\ (fraud_detected_count (snd (ingest R address name o s))
      = fraud_detected_count s
      \/ fraud_detected_count (snd (ingest R address name o s))
         = fraud_detected_count s + 1).
Proof.
  pose proof (ingest_spec R address name o s) as H.
  rewrite (ingest_raises_outcome R address name o s e Hraises) in H.
  destruct H as (fc & Hfc & ->). simpl. auto.
Qed.

(** X4. An entry whose key is already stored is skipped whatever its payload,
    decodable or not: no event is written and no counter moves, yet the
    transaction's block number is raised to the entry's if that is higher. *)
Theorem duplicate_is_skipped_before_decoding
    (R : runtime) (address name : string) (o : observation) (s : run_state)
    (t : Transaction)
    (Hpk : pk_consistent (db s))
    (Hstored : transactions (db s) !! transactionHash (entry o) = Some t)
    (Hkey : has_event (db s) (key_of o) = true)
    (Hblock : blockNumber (entry o) <= block_number t
              \/ PositiveIntegerField_ok (blockNumber (entry o)) = true) :
  fst (ingest R address name o s) = Ok DuplicateSkipped
  /\ events (db (snd (ingest R address name o s))) = events (db s)
  /\ stored_block (db (snd (ingest R address name o s)))
       (transactionHash (entry o))
     = Some (Z.max (block_number t) (blockNumber (entry o)))
  /\ processed_count (snd (ingest R address name o s)) = processed_count s
  /\ fraud_detected_count (snd (ingest R address name o s))
     = fraud_detected_count s.
Proof.
  pose proof (transaction_seen_hash o (db s) Hpk) as Hseen.
  assert (Hout : entry_outcome R address name o (db s) = Skipped).
  { unfold entry_outcome, transaction_step_ok. rewrite Hstored, Hseen.
    unfold key_of in Hkey. rewrite Hkey.
    destruct (block_number t <? blockNumber (entry o)) eqn:L; [|reflexivity].
    destruct Hblock as [Hle | ->]; [|reflexivity].
    apply Z.ltb_lt in L. lia. }
  pose proof (ingest_spec R address name o s) as H. rewrite Hout in H.
  rewrite H. simpl. repeat split; try reflexivity.
  unfold stored_block. simpl. rewrite (table_seen_observe o (db s) Hpk).
  rewrite observe_block_lookup_eq, Hstored.
  destruct (block_number t <? blockNumber (entry o)) eqn:L; simpl; f_equal.
  - apply Z.ltb_lt in L. lia.
  - apply Z.ltb_ge in L. lia.
Qed.

(** ** What a row is made of *)

Lemma row_of_event_data_retimed R kw kw' :
  transaction_hash (kw_transaction kw') = transaction_hash (kw_transaction kw) ->
  kw_log_index kw' = kw_log_index kw ->
  kw_event_name kw' = kw_event_name kw ->
  kw_contract_address kw' = kw_contract_address kw ->
  kw_is_fraudulent kw' = kw_is_fraudulent kw ->
  kw_data kw' = kw_data kw ->
  kw_event_from_address kw' = kw_event_from_address kw ->
  kw_event_to_address kw' = kw_event_to_address kw ->
  kw_event_amount kw' = kw_event_amount kw ->
  kw_event_tx_hash_param kw' = kw_event_tx_hash_param kw ->
  kw_event_sender_address kw' = kw_event_sender_address kw ->
  kw_event_message kw' = kw_event_message kw ->
  kw_event_onchain_timestamp kw' = kw_event_onchain_timestamp kw ->
  row_of_event_data R kw'
  = match row_of_event_data R kw with
    | Ok row => Ok (with_block_timestamp (kw_block_timestamp kw') row)
    | Raise e => Raise e
    end.
Proof.
  intros H0 H1 H2 H3 H4 H5 H6 H7 H8 H9 H10 H11 H12. unfold row_of_event_data.
  rewrite H0, H1, H2, H3, H4, H5, H6, H7, H8, H9, H10, H11, H12.
  step_binds.
Qed.

Lemma entry_row_retimed R address name o o' t t' :
  entry o' = entry o ->
  transaction_hash t' = transaction_hash t ->
  entry_row R address name o' t'
  = match entry_row R address name o t with
    | Ok row =>
        Ok (with_block_timestamp
              (get_block_timestamp o' (blockNumber (entry o'))) row)
    | Raise e => Raise e
    end.
Proof.
  intros He Ht. unfold entry_row. rewrite He.
  destruct (decoded (entry o)) as [a|]; simpl; [|reflexivity].
  destruct (validate_transaction_hash _); simpl; [|reflexivity].
  destruct (validate_block_number _); simpl; [|reflexivity].
  unfold event_data_for_model.
  destruct (String.eqb name "TransactionSubmitted").
  - destruct (match dict_get a "amount" with VNone => _ | _ => _ end);
      simpl; [|reflexivity].
    rewrite <- He. now apply row_of_event_data_retimed.
  - destruct (String.eqb name "ContractEvent"); simpl;
      rewrite <- He; now apply row_of_event_data_retimed.
Qed.

(** X5. Whether an entry is stored, skipped or refused, and with which error,
    does not depend on the wall clock or on the node's answer for the block
    time; these only set the block timestamp of the stored row. *)
Theorem clock_only_sets_the_timestamp
    (R : runtime) (address name : string) (o o' : observation) (d : database)
    (Hpk : pk_consistent d)
    (Hentry : entry o' = entry o) :
  entry_outcome R address name o' d
  = retimed (get_block_timestamp o' (blockNumber (entry o')))
      (entry_outcome R address name o d).
Proof.
  unfold entry_outcome.
  assert (Hstep : transaction_step_ok o' (transactions d)
                  = transaction_step_ok o (transactions d)).
  { unfold transaction_step_ok. now rewrite Hentry. }
  rewrite Hstep. destruct (transaction_step_ok o (transactions d)); [|reflexivity].
  cbv zeta.
  rewrite (transaction_seen_hash o' d Hpk), (transaction_seen_hash o d Hpk), Hentry.
  destruct (has_event d _); [reflexivity|].
  rewrite (entry_row_retimed R address name o o'
             (transaction_seen o (transactions d))
             (transaction_seen o' (transactions d)) Hentry).
  - destruct (entry_row R address name o _); reflexivity.
  - rewrite (transaction_seen_hash o' d Hpk), (transaction_seen_hash o d Hpk).
    now rewrite Hentry.
Qed.

Lemma entry_row_projections R address name o t row a :
  entry_row R address name o t = Ok row ->
  decoded (entry o) = Ok a ->
  exists kw,
    event_data_for_model R address name t (logIndex (entry o))
      (get_block_timestamp o (blockNumber (entry o)))
      (detect_fraud name (entry o) a) a = Ok kw
    /\ event_from_address row = text_prep R (kw_event_from_address kw)
    /\ event_to_address row = text_prep R (kw_event_to_address kw)
    /\ event_amount row = kw_event_amount kw
    /\ event_tx_hash_param row = text_prep R (kw_event_tx_hash_param kw)
    /\ event_sender_address row = text_prep R (kw_event_sender_address kw)
    /\ event_message row = text_prep R (kw_event_message kw)
    /\ integer_prep R (kw_event_onchain_timestamp kw)
       = Ok (event_onchain_timestamp row)
    /\ option_ok DecimalField_ok (event_amount row) = true
    /\ option_ok PositiveBigIntegerField_ok (event_onchain_timestamp row) = true.
Proof.
  unfold entry_row. intros H Ha. rewrite Ha in H. simpl in H.
  destruct (validate_transaction_hash _); simpl in H; [|discriminate].
  destruct (validate_block_number _); simpl in H; [|discriminate].
  destruct (event_data_for_model _ _ _ _ _ _ _ _) as [kw|]; simpl in H;
    [|discriminate].
  exists kw. split; [reflexivity|].
  unfold row_of_event_data, check in H.
  destruct (integer_prep R (kw_event_onchain_timestamp kw)) as [ts|] eqn:Hts;
    simpl in H; [|discriminate].
  ok_inversion H. simpl.
  repeat match goal with
  | E : (if ?b then _ else _) = Ok _ |- _ =>
      destruct b eqn:?; try discriminate; clear E
  end.
  repeat split; auto.
Qed.

(** X6. A stored row has the typed fields of its event type filled from the
    decoded arguments and the fields of the other type empty; under any
    other event name all seven are empty.  For a value transfer the amount
    handed to [create] is the [Decimal] of the decoded amount, and the amount
    field is empty exactly when the decoded amount is absent or [None]. *)
Theorem typed_projections_follow_event_type
    (R : runtime) (address name : string) (o : observation) (t : Transaction)
    (row : ContractEvent) (a : args)
    (Hrow : entry_row R address name o t = Ok row)
    (Hdecoded : decoded (entry o) = Ok a) :
  exists kw : event_data,
    event_data_for_model R address name t (logIndex (entry o))
      (get_block_timestamp o (blockNumber (entry o)))
      (detect_fraud name (entry o) a) a = Ok kw
    /\ (name = "TransactionSubmitted" ->
          event_from_address row = text_prep R (dict_get a "from")
          /\ event_to_address row = text_prep R (dict_get a "to")
          /\ event_tx_hash_param row = text_prep R (dict_get a "txHash")
          /\ event_sender_address row = None
          /\ event_message row = None
          /\ event_onchain_timestamp row = None
          /\ (dict_get a "amount" = VNone ->
                kw_event_amount kw = None /\ event_amount row = None)
          /\ (dict_get a "amount" <> VNone ->
                exists n, Decimal R (dict_get a "amount") = Ok n
                          /\ kw_event_amount kw = Some n
                          /\ event_amount row <> None))
    /\ (name = "ContractEvent" ->
          event_sender_address row = text_prep R (dict_get a "sender")
          /\ event_message row = text_prep R (dict_get a "message")
          /\ integer_prep R (dict_get a "timestamp")
             = Ok (event_onchain_timestamp row)
          /\ event_from_address row = None
          /\ event_to_address row = None
          /\ kw_event_amount kw = None
          /\ event_amount row = None
          /\ event_tx_hash_param row = None)
    /\ (name <> "TransactionSubmitted" -> name <> "ContractEvent" ->
          event_from_address row = None
          /\ event_to_address row = None
          /\ kw_event_amount kw = None
          /\ event_amount row = None
          /\ event_tx_hash_param row = None
          /\ event_sender_address row = None
          /\ event_message row = None
          /\ event_onchain_timestamp row = None).
Proof.
  destruct (entry_row_projections R address name o t row a Hrow Hdecoded)
    as (kw & Hkw & Hf & Hto & Ham & Htx & Hs & Hm & Hts & _ & _).
  exists kw. split; [exact Hkw|].
  unfold event_data_for_model in Hkw.
  split; [|split].
  - intros ->. simpl in Hkw.
    destruct (dict_get a "amount") as [|b|n|s|bs] eqn:Hamount;
      [ injection Hkw as <-; simpl in *; injection Hts as <-;
        repeat split; try assumption; try (intros H; congruence)
      | destruct (Decimal R _) as [d|e] eqn:Hd; simpl in Hkw;
        [|discriminate];
        injection Hkw as <-; simpl in *; injection Hts as <-;
        repeat split; try assumption; try discriminate;
        intros _; exists d; rewrite Ham; repeat split; discriminate .. ].
  - intros ->. simpl in Hkw. injection Hkw as <-. simpl in *.
    repeat split; assumption.
  - intros H1 H2.
    apply String.eqb_neq in H1, H2. rewrite H1, H2 in Hkw.
    injection Hkw as <-. simpl in *. injection Hts as <-.
    repeat split; assumption.
Qed.

(** ** Invariants of the store *)

Section Store.

Context (R : runtime) (address : string).

Lemma db_after_events name o d :
  events (db_after R address name o d)
  = (events d ++ stored_rows [entry_outcome R address name o d])%list.
Proof.
  unfold db_after.
  destruct (entry_outcome R address name o d); simpl;
    rewrite ?app_nil_r; reflexivity.
Qed.

Lemma stored_rows_cons r l :
  stored_rows (r :: l) = (stored_rows [r] ++ stored_rows l)%list.
Proof. unfold stored_rows. simpl. destruct r; reflexivity. Qed.

Lemma db_sequence_events l : forall d,
  events (db_sequence R address d l)
  = (events d ++ stored_rows (outcomes R address d l))%list.
Proof.
  induction l as [|p l IH]; intros d; simpl.
  - unfold stored_rows. simpl. now rewrite app_nil_r.
  - fold (db_sequence R address (db_after R address (fst p) (snd p) d) l).
    rewrite IH, db_after_events, <- app_assoc. f_equal.
    symmetry. apply stored_rows_cons.
Qed.

Lemma count_of_is_stored l :
  count_of is_stored l = Z.of_nat (length (stored_rows l)).
Proof.
  induction l as [|r l IH]; [reflexivity|].
  rewrite count_of_cons, IH, stored_rows_cons, length_app.
  destruct r; simpl; lia.
Qed.

Lemma count_flagged_rows_app l1 l2 :
  count_flagged_rows (l1 ++ l2)
  = count_flagged_rows l1 + count_flagged_rows l2.
Proof. unfold count_flagged_rows. rewrite filter_app, length_app. lia. Qed.

Lemma count_of_is_flagged l :
  count_of is_flagged l = count_flagged_rows (stored_rows l).
Proof.
  induction l as [|r l IH]; [reflexivity|].
  rewrite count_of_cons, IH, stored_rows_cons, count_flagged_rows_app.
  f_equal. destruct r as [row| |]; try reflexivity.
  unfold count_flagged_rows, stored_rows. simpl. rewrite filter_cons.
  destruct (decide _) as [->|E]; [reflexivity|].
  apply not_true_is_false in E. now rewrite E.
Qed.

(** What a stored row is made of. *)
Lemma entry_outcome_stored name o d row :
  entry_outcome R address name o d = Stored row ->
  transaction_step_ok o (transactions d) = true
  /\ has_event d (transaction_hash (transaction_seen o (transactions d)),
                  logIndex (entry o)) = false
  /\ entry_row R address name o (transaction_seen o (transactions d)) = Ok row.
Proof.
  unfold entry_outcome.
  destruct (transaction_step_ok o (transactions d)); [|discriminate].
  cbv zeta. destruct (has_event d _); [discriminate|].
  destruct (entry_row _ _ _ _ _); [|discriminate].
  intros [= ->]. auto.
Qed.

Lemma entry_outcome_skipped name o d :
  entry_outcome R address name o d = Skipped ->
  transaction_step_ok o (transactions d) = true
  /\ has_event d (transaction_hash (transaction_seen o (transactions d)),
                  logIndex (entry o)) = true.
Proof.
  unfold entry_outcome.
  destruct (transaction_step_ok o (transactions d)); [|discriminate].
  cbv zeta. destruct (has_event d _); [auto|].
  destruct (entry_row _ _ _ _ _); discriminate.
Qed.

Lemma has_event_elem (d : database) (k : string * Z) :
  has_event d k = true <-> k ∈ map event_key (events d).
Proof.
  unfold has_event. rewrite existsb_exists, list_elem_of_In, in_map_iff.
  split.
  - intros (e & He & Hk). exists e. split; [|exact He].
    apply same_key_iff in Hk as [H1 H2]. unfold event_key.
    destruct k; simpl in *; congruence.
  - intros (e & <- & He). exists e. split; [exact He|].
    apply same_key_iff. auto.
Qed.

(** unique_together *)
Lemma db_after_unique_together name o d :
  unique_together d -> unique_together (db_after R address name o d).
Proof.
  unfold unique_together. intros Hu. rewrite db_after_events.
  destruct (entry_outcome R address name o d) as [row| |] eqn:E;
    unfold stored_rows; simpl; rewrite ?app_nil_r; try exact Hu.
  apply entry_outcome_stored in E as (_ & Hnew & Hrow).
  destruct (entry_row_fields R address name o _ row Hrow)
    as (a & _ & Hid & Hidx & _).
  rewrite map_app. simpl. apply NoDup_app. split; [exact Hu|]. split.
  - intros k Hk Hk'. apply list_elem_of_singleton in Hk'. subst k.
    apply has_event_elem in Hk. unfold event_key in Hk.
    rewrite Hid, Hidx in Hk. congruence.
  - apply NoDup_singleton.
Qed.

Lemma db_sequence_unique_together l : forall d,
  unique_together d -> unique_together (db_sequence R address d l).
Proof.
  induction l as [|p l IH]; intros d Hu; [exact Hu|].
  simpl. apply IH. now apply db_after_unique_together.
Qed.

(** foreign keys *)
Lemma observe_block_is_Some h b now m k :
  is_Some (m !! k) -> is_Some (observe_block h b now m !! k).
Proof.
  intros [t Ht].
  destruct (observe_block_frame h b now m k t Ht) as (t' & -> & _). eauto.
Qed.

Lemma db_after_foreign_keys name o d :
  pk_consistent d -> foreign_keys_ok d ->
  foreign_keys_ok (db_after R address name o d).
Proof.
  unfold foreign_keys_ok. intros Hpk Hfk. rewrite db_after_events.
  apply Forall_app. split.
  - eapply Forall_impl; [exact Hfk|]. intros e He. simpl in He.
    destruct (db_after_transactions R address name o d Hpk) as [-> | ->];
      [exact He|]. now apply observe_block_is_Some.
  - destruct (entry_outcome R address name o d) as [row| |] eqn:E;
      unfold stored_rows; simpl; try constructor; [|constructor].
    unfold db_after. rewrite E. simpl.
    apply entry_outcome_stored in E as (_ & _ & Hrow).
    destruct (entry_row_fields R address name o _ row Hrow)
      as (a & _ & Hid & _).
    rewrite Hid, (transaction_seen_hash o d Hpk).
    rewrite (table_seen_observe o d Hpk), observe_block_lookup_eq. eauto.
Qed.

Lemma db_sequence_foreign_keys l : forall d,
  pk_consistent d -> foreign_keys_ok d ->
  foreign_keys_ok (db_sequence R address d l).
Proof.
  induction l as [|p l IH]; intros d Hpk Hfk; [exact Hfk|].
  simpl. apply IH.
  - now apply pk_consistent_db_after.
  - now apply db_after_foreign_keys.
Qed.

End Store.

(** ** Taking entries in *)

Section Store2.

Context (R : runtime) (address : string).

Lemma entry_row_validated name o t row :
  entry_row R address name o t = Ok row ->
  validate_transaction_hash (transactionHash (entry o)) = Ok tt.
Proof.
  unfold entry_row. intros H.
  destruct (decoded (entry o)); simpl in H; [|discriminate].
  destruct (validate_transaction_hash _) as [[]|]; [reflexivity|discriminate].
Qed.

Lemma entry_row_block_validated name o t row :
  entry_row R address name o t = Ok row ->
  0 <= blockNumber (entry o).
Proof.
  unfold entry_row. intros H.
  destruct (decoded (entry o)); simpl in H; [|discriminate].
  destruct (validate_transaction_hash _); simpl in H; [|discriminate].
  unfold validate_block_number in H.
  destruct (blockNumber (entry o) <? 0) eqn:E; simpl in H; [discriminate|].
  now apply Z.ltb_ge in E.
Qed.

Lemma validator_validated_hash (h : string) :
  validate_transaction_hash h = Ok tt -> validated_hash h.
Proof.
  intros Hv. unfold validate_transaction_hash in Hv.
  apply validator_accepts, re_match_0x_hex_spec in Hv
    as [H | (s0 & H & ->)]; [now left|].
  right. eauto.
Qed.

(** A new transaction outlives its entry only when the entry was stored: an
    entry that is skipped has an event row, so its transaction was there
    before. *)
Lemma skipped_entry_has_transaction name o d :
  pk_consistent d -> foreign_keys_ok d ->
  entry_outcome R address name o d = Skipped ->
  transactions d !! transactionHash (entry o) <> None.
Proof.
  intros Hpk Hfk E Hnone.
  apply entry_outcome_skipped in E as (_ & Hdup).
  rewrite (transaction_seen_hash o d Hpk) in Hdup.
  apply has_event_elem, list_elem_of_In, in_map_iff in Hdup
    as (e & Hk & He).
  unfold foreign_keys_ok in Hfk. rewrite Forall_forall in Hfk.
  apply list_elem_of_In, Hfk in He. injection Hk as Hk _.
  rewrite Hk, Hnone in He. now destruct He.
Qed.

Lemma db_after_hashes name o d :
  pk_consistent d -> foreign_keys_ok d -> hashes_validated d ->
  hashes_validated (db_after R address name o d).
Proof.
  unfold hashes_validated. intros Hpk Hfk Hh.
  assert (Hcommitted :
            (transactions d !! transactionHash (entry o) = None ->
             validated_hash (transactionHash (entry o))) ->
            map_Forall (fun h (_ : Transaction) => validated_hash h)
              (table_seen o (transactions d))).
  { intros Hnew. rewrite (table_seen_observe o d Hpk). unfold observe_block.
    destruct (transactions d !! transactionHash (entry o)) as [t|] eqn:Et.
    - destruct (block_number t <? blockNumber (entry o)); [|exact Hh].
      apply map_Forall_insert_2; [|exact Hh]. exact (Hh _ _ Et).
    - apply map_Forall_insert_2; [|exact Hh]. now apply Hnew. }
  unfold db_after.
  destruct (entry_outcome R address name o d) as [row| |] eqn:E; simpl.
  - apply Hcommitted. intros _.
    apply entry_outcome_stored in E as (_ & _ & Hrow).
    apply validator_validated_hash. eapply entry_row_validated; eauto.
  - apply Hcommitted. intros Hnone. exfalso.
    now apply (skipped_entry_has_transaction name o d Hpk Hfk E).
  - exact Hh.
Qed.

Lemma db_sequence_hashes l : forall d,
  pk_consistent d -> foreign_keys_ok d -> hashes_validated d ->
  hashes_validated (db_sequence R address d l).
Proof.
  induction l as [|p l IH]; intros d Hpk Hfk Hh; [exact Hh|].
  simpl. apply IH.
  - now apply pk_consistent_db_after.
  - now apply db_after_foreign_keys.
  - now apply db_after_hashes.
Qed.

Lemma db_after_block_numbers name o d :
  pk_consistent d -> foreign_keys_ok d -> block_numbers_nonnegative d ->
  block_numbers_nonnegative (db_after R address name o d).
Proof.
  unfold block_numbers_nonnegative. intros Hpk Hfk Hb.
  assert (Hcommitted :
            (transactions d !! transactionHash (entry o) = None ->
             0 <= blockNumber (entry o)) ->
            map_Forall (fun (_ : string) t => 0 <= block_number t)
              (table_seen o (transactions d))).
  { intros Hnew. rewrite (table_seen_observe o d Hpk). unfold observe_block.
    destruct (transactions d !! transactionHash (entry o)) as [t|] eqn:Et.
    - destruct (block_number t <? blockNumber (entry o)) eqn:Hlt;
        [|exact Hb].
      apply map_Forall_insert_2; [|exact Hb].
      apply Z.ltb_lt in Hlt. specialize (Hb _ _ Et). simpl in *. lia.
    - apply map_Forall_insert_2; [|exact Hb]. simpl. now apply Hnew. }
  unfold db_after.
  destruct (entry_outcome R address name o d) as [row| |] eqn:E; simpl.
  - apply Hcommitted. intros _.
    apply entry_outcome_stored in E as (_ & _ & Hrow).
    eapply entry_row_block_validated; eauto.
  - apply Hcommitted. intros Hnone. exfalso.
    now apply (skipped_entry_has_transaction name o d Hpk Hfk E).
  - exact Hb.
Qed.

Lemma db_sequence_block_numbers l : forall d,
  pk_consistent d -> foreign_keys_ok d -> block_numbers_nonnegative d ->
  block_numbers_nonnegative (db_sequence R address d l).
Proof.
  induction l as [|p l IH]; intros d Hpk Hfk Hb; [exact Hb|].
  simpl. apply IH.
  - now apply pk_consistent_db_after.
  - now apply db_after_foreign_keys.
  - now apply db_after_block_numbers.
Qed.

(** Where the stored rows come from. *)
Lemma stored_rows_origin l : forall d row,
  pk_consistent d ->
  row ∈ stored_rows (outcomes R address d l) ->
  exists p d',
    p ∈ l /\ pk_consistent d'
    /\ entry_outcome R address (fst p) (snd p) d' = Stored row.
Proof.
  induction l as [|p l IH]; intros d row Hpk Hrow.
  - unfold stored_rows in Hrow. simpl in Hrow. now apply not_elem_of_nil in Hrow.
  - cbn [outcomes] in Hrow. rewrite stored_rows_cons in Hrow.
    apply elem_of_app in Hrow as [Hrow|Hrow].
    + exists p, d. split; [left|]. split; [exact Hpk|].
      destruct (entry_outcome R address (fst p) (snd p) d) as [row'| |];
        unfold stored_rows in Hrow; simpl in Hrow;
        try (now apply not_elem_of_nil in Hrow).
      apply list_elem_of_singleton in Hrow. now subst.
    + destruct (IH _ row (pk_consistent_db_after R address _ _ d Hpk) Hrow)
        as (q & d' & Hq & Hpk' & Hout).
      exists q, d'. split; [now right|auto].
Qed.

(** Entries once taken in stay taken in. *)
Lemma db_after_has_event_mono name o d k :
  has_event d k = true -> has_event (db_after R address name o d) k = true.
Proof.
  unfold has_event. rewrite db_after_events, existsb_app. intros ->. reflexivity.
Qed.

Lemma db_after_ingested_mono name o d lg :
  pk_consistent d -> ingested d lg ->
  ingested (db_after R address name o d) lg.
Proof.
  intros Hpk (Hkey & t & Ht & Hb). split.
  - now apply db_after_has_event_mono.
  - destruct (db_after_frame R address name o d _ t Hpk Ht)
      as (t' & Ht' & _ & _ & Hb').
    exists t'. split; [exact Ht'|lia].
Qed.

Lemma db_after_ingests name o d :
  pk_consistent d ->
  (forall e, entry_outcome R address name o d <> Failed e) ->
  ingested (db_after R address name o d) (entry o).
Proof.
  intros Hpk Hok.
  pose proof (transaction_seen_hash o d Hpk) as Hseen.
  assert (Htable :
            transactions (committed o d) !! transactionHash (entry o)
            = Some (transaction_seen o (transactions d))).
  { simpl. rewrite (table_seen_observe o d Hpk), observe_block_lookup_eq.
    reflexivity. }
  assert (Hblock :
            blockNumber (entry o)
            <= block_number (transaction_seen o (transactions d))).
  { unfold transaction_seen.
    destruct (transactions d !! _) as [t|]; simpl; [|lia].
    destruct (block_number t <? _) eqn:L; simpl; [lia|].
    now apply Z.ltb_ge in L. }
  unfold ingested, db_after.
  destruct (entry_outcome R address name o d) as [row| |e] eqn:E.
  - apply entry_outcome_stored in E as (_ & _ & Hrow).
    destruct (entry_row_fields R address name o _ row Hrow)
      as (a & _ & Hid & Hidx & _).
    split.
    + unfold has_event. simpl. rewrite existsb_app. simpl.
      assert (same_key (transactionHash (entry o)) (logIndex (entry o)) row
              = true) as ->.
      { apply same_key_iff. rewrite Hid, Hidx, Hseen. auto. }
      now rewrite orb_true_r.
    + eauto.
  - apply entry_outcome_skipped in E as (_ & Hdup). rewrite Hseen in Hdup.
    split; [exact Hdup|eauto].
  - now destruct (Hok e).
Qed.

Lemma db_sequence_ingested_mono l : forall d lg,
  pk_consistent d -> ingested d lg -> ingested (db_sequence R address d l) lg.
Proof.
  induction l as [|p l IH]; intros d lg Hpk Hin; [exact Hin|].
  simpl. apply IH.
  - now apply pk_consistent_db_after.
  - now apply db_after_ingested_mono.
Qed.

Lemma well_formed_not_failed name o d e :
  well_formed R address name o = true ->
  entry_outcome R address name o d <> Failed e.
Proof.
  intros Hwf. pose proof (well_formed_outcome R address name o d Hwf) as H.
  destruct (has_event d _).
  - rewrite H. discriminate.
  - destruct H as (row & _ & ->). discriminate.
Qed.

Lemma db_sequence_ingested l : forall d p,
  pk_consistent d ->
  p ∈ l ->
  well_formed R address (fst p) (snd p) = true ->
  ingested (db_sequence R address d l) (entry (snd p)).
Proof.
  induction l as [|q l IH]; intros d p Hpk Hp Hwf.
  - now apply not_elem_of_nil in Hp.
  - simpl. apply elem_of_cons in Hp as [-> | Hp].
    + apply db_sequence_ingested_mono.
      * now apply pk_consistent_db_after.
      * apply db_after_ingests; [exact Hpk|].
        intros e. now apply well_formed_not_failed.
    + apply IH; [now apply pk_consistent_db_after|exact Hp|exact Hwf].
Qed.

Lemma ingested_is_skipped name o s :
  pk_consistent (db s) ->
  ingested (db s) (entry o) ->
  ingest R address name o s = (Ok DuplicateSkipped, s).
Proof.
  intros Hpk (Hkey & t & Ht & Hb).
  assert (Hlt : (block_number t <? blockNumber (entry o)) = false)
    by now apply Z.ltb_ge.
  assert (Hout : entry_outcome R address name o (db s) = Skipped).
  { unfold entry_outcome, transaction_step_ok.
    rewrite Ht, Hlt, (transaction_seen_hash o (db s) Hpk), Hkey. reflexivity. }
  pose proof (ingest_spec R address name o s) as H. rewrite Hout in H.
  rewrite H. f_equal.
  unfold committed, table_seen. rewrite Ht, Hlt.
  destruct s as [[T E] pc fc]. reflexivity.
Qed.

(** Entries already taken in are skipped without a trace. *)
Lemma processing_again_changes_nothing
    (l l2 : list (string * observation)) (s s2 : run_state)
    (Hpk : pk_consistent (db s))
    (Hwf : Forall (fun p => well_formed R address (fst p) (snd p) = true) l)
    (Hdb : db s2 = db (process_sequence R address s l))
    (Hsame : Forall (fun p2 => exists p1, p1 ∈ l /\ entry (snd p2) = entry (snd p1))
               l2) :
  process_sequence R address s2 l2 = s2.
Proof.
  assert (Hpk2 : pk_consistent (db s2)).
  { rewrite Hdb, process_sequence_db. now apply pk_consistent_db_sequence. }
  induction l2 as [|p2 l2 IH]; [reflexivity|].
  inversion Hsame as [|? ? (p1 & Hp1 & He) Hrest]; subst.
  rewrite process_sequence_cons. unfold process_entry.
  rewrite ingested_is_skipped; [now apply IH|exact Hpk2|].
  rewrite He, Hdb, process_sequence_db.
  apply db_sequence_ingested; [exact Hpk|exact Hp1|].
  rewrite Forall_forall in Hwf. now apply Hwf.
Qed.

End Store2.

(** ** Arrival order, and the read side *)

Section Store3.

Context (R : runtime) (address : string).

Lemma with_block_timestamp_same row :
  with_block_timestamp (block_timestamp row) row = row.
Proof. now destruct row. Qed.

Lemma entry_row_same_hash name o t t' :
  transaction_hash t' = transaction_hash t ->
  entry_row R address name o t' = entry_row R address name o t.
Proof.
  intros Ht. rewrite (entry_row_retimed R address name o o t t' eq_refl Ht).
  destruct (entry_row R address name o t) as [row|] eqn:E; [|reflexivity].
  destruct (entry_row_fields R address name o t row E)
    as (a & _ & _ & _ & _ & _ & Hts & _).
  now rewrite <- Hts, with_block_timestamp_same.
Qed.

Lemma well_formed_sequence_events l : forall d,
  pk_consistent d ->
  Forall (fun p => well_formed R address (fst p) (snd p) = true) l ->
  NoDup (map (fun p => key_of (snd p)) l) ->
  Forall (fun p => has_event d (key_of (snd p)) = false) l ->
  events (db_sequence R address d l)
  = (events d ++ rows_of_entries R address l)%list
  /\ length (rows_of_entries R address l) = length l.
Proof.
  induction l as [|p l IH]; intros d Hpk Hwf Hnodup Hfresh.
  - simpl. now rewrite app_nil_r.
  - inversion Hwf as [|? ? Hwo Hwl]; subst.
    inversion Hnodup as [|? ? Hnotin Hnd]; subst.
    inversion Hfresh as [|? ? Hfo Hfl]; subst.
    destruct (db_after_well_formed_fresh R address (fst p) (snd p) d Hpk Hwo Hfo)
      as (Hst & Hev).
    pose proof (well_formed_outcome R address (fst p) (snd p) d Hwo) as Hout.
    rewrite (transaction_seen_hash (snd p) d Hpk) in Hout.
    unfold key_of in Hfo. rewrite Hfo in Hout.
    destruct Hout as (row & Hrow & Hout).
    rewrite (entry_row_same_hash (fst p) (snd p) (first_seen (snd p))) in Hrow
      by apply (transaction_seen_hash (snd p) d Hpk).
    destruct (IH (db_after R address (fst p) (snd p) d)) as (Hevents & Hlen).
    + now apply pk_consistent_db_after.
    + exact Hwl.
    + exact Hnd.
    + rewrite Forall_forall in Hfl |- *. intros q Hq.
      rewrite Hev, (Hfl q Hq). simpl.
      apply bool_decide_eq_false. intros E. apply Hnotin.
      rewrite <- E. apply list_elem_of_In.
      apply (in_map (fun p => key_of (snd p))). now apply list_elem_of_In.
    + assert (Hcons : rows_of_entries R address (p :: l)
                      = row :: rows_of_entries R address l).
      { unfold rows_of_entries. simpl. now rewrite Hrow. }
      rewrite Hcons. simpl db_sequence.
      fold (db_sequence R address (db_after R address (fst p) (snd p) d) l).
      rewrite Hevents, db_after_events, Hout.
      unfold stored_rows. simpl. rewrite <- app_assoc. simpl.
      split; [reflexivity|]. now rewrite Hlen.
Qed.

Lemma rows_of_entries_Permutation l l' :
  Permutation l l' ->
  Permutation (rows_of_entries R address l) (rows_of_entries R address l').
Proof. intros HP. unfold rows_of_entries. now rewrite HP. Qed.

(** X15. For acceptable entries with distinct keys not stored yet, the rows
    appended are those the entries give one by one, in arrival order; another
    arrival order stores the same rows in another order and counts as many. *)
Theorem arrival_order_does_not_change_the_events
    (l l' : list (string * observation)) (s : run_state)
    (Hpk : pk_consistent (db s))
    (Hwf : Forall (fun p => well_formed R address (fst p) (snd p) = true) l)
    (Hdistinct : NoDup (map (fun p => key_of (snd p)) l))
    (Hfresh : Forall (fun p => has_event (db s) (key_of (snd p)) = false) l)
    (Horder : Permutation l l') :
  events (db (process_sequence R address s l))
  = (events (db s) ++ rows_of_entries R address l)%list
  /\ length (rows_of_entries R address l) = length l
  /\ Permutation (events (db (process_sequence R address s l')))
       (events (db (process_sequence R address s l)))
  /\ processed_count (process_sequence R address s l')
     = processed_count s + Z.of_nat (length l).
Proof.
  assert (Hwf' : Forall (fun p => well_formed R address (fst p) (snd p) = true) l')
    by now rewrite <- Horder.
  assert (Hdistinct' : NoDup (map (fun p => key_of (snd p)) l')).
  { now rewrite <- (Permutation_map (fun p => key_of (snd p)) Horder). }
  assert (Hfresh' : Forall (fun p => has_event (db s) (key_of (snd p)) = false) l')
    by now rewrite <- Horder.
  destruct (well_formed_sequence_events l (db s) Hpk Hwf Hdistinct Hfresh)
    as (He & Hlen).
  destruct (well_formed_sequence_events l' (db s) Hpk Hwf' Hdistinct' Hfresh')
    as (He' & Hlen').
  rewrite !process_sequence_db, He, He'.
  split; [reflexivity|]. split; [exact Hlen|]. split.
  - apply Permutation_app_head. symmetry. now apply rows_of_entries_Permutation.
  - rewrite process_sequence_processed_count, count_of_is_stored.
    assert (Hrows : stored_rows (outcomes R address (db s) l')
                    = rows_of_entries R address l').
    { apply (app_inv_head (events (db s))).
      now rewrite <- db_sequence_events, He'. }
    rewrite Hrows, Hlen'. f_equal. f_equal. symmetry.
    now apply Permutation_length.
Qed.

End Store3.

Lemma ContractEvent_ordering_total : Total ContractEvent_ordering.
Proof. intros e1 e2. unfold ContractEvent_ordering. lia. Qed.

Lemma ContractEvent_ordering_transitive : Transitive ContractEvent_ordering.
Proof. intros e1 e2 e3. unfold ContractEvent_ordering. lia. Qed.

Lemma NoDup_map_inj {A B} (f : A -> B) (l : list A) x y :
  NoDup (map f l) -> x ∈ l -> y ∈ l -> f x = f y -> x = y.
Proof.
  induction l as [|a l IH]; intros Hnd Hx Hy Hf.
  - now apply not_elem_of_nil in Hx.
  - simpl in Hnd. apply NoDup_cons in Hnd as [Hnotin Hnd].
    apply elem_of_cons in Hx as [-> | Hx], Hy as [-> | Hy]; auto.
    + exfalso. apply Hnotin. rewrite Hf. apply list_elem_of_In, in_map.
      now apply list_elem_of_In.
    + exfalso. apply Hnotin. rewrite <- Hf. apply list_elem_of_In, in_map.
      now apply list_elem_of_In.
Qed.

Lemma resolve_events_by_transaction_elem d h e :
  e ∈ resolve_events_by_transaction d h
  <-> e ∈ events d /\ transaction_id e = h.
Proof.
  unfold resolve_events_by_transaction.
  rewrite merge_sort_Permutation, list_elem_of_filter. tauto.
Qed.

(** X16. The events listed for a transaction are the stored events of that
    transaction, latest block timestamp first and then highest log index
    first; when keys are unique this order is the only one possible. *)
Theorem events_of_a_transaction_come_in_one_order
    (d : database) (h : string) :
  (forall e, e ∈ resolve_events_by_transaction d h
             <-> e ∈ events d /\ transaction_id e = h)
  /\ Sorted ContractEvent_ordering (resolve_events_by_transaction d h)
  /\ (unique_together d ->
      forall r,
        Permutation r (filter (fun e => transaction_id e = h) (events d)) ->
        Sorted ContractEvent_ordering r ->
        r = resolve_events_by_transaction d h).
Proof.
  split; [apply resolve_events_by_transaction_elem|]. split.
  - apply (@Sorted_merge_sort _ _ _ ContractEvent_ordering_total).
  - intros Hu r Hperm Hsorted.
    apply (@Sorted_unique_strong _ _ ContractEvent_ordering_transitive).
    + intros x1 x2 Hx1 Hx2 H12 H21.
      rewrite Hperm in Hx1. apply list_elem_of_filter in Hx1 as [Hh1 Hx1].
      apply resolve_events_by_transaction_elem in Hx2 as [Hx2 Hh2].
      apply (NoDup_map_inj event_key (events d)); auto.
      unfold event_key, ContractEvent_ordering in *.
      f_equal; [congruence|lia].
    + exact Hsorted.
    + apply (@Sorted_merge_sort _ _ _ ContractEvent_ordering_total).
    + unfold resolve_events_by_transaction.
      now rewrite merge_sort_Permutation.
Qed.

(** ** Reading back *)

Section Reads.

Context (R : runtime) (address : string).

(** X17. After a sequence of entries, every acceptable entry of it can be read
    back: its transaction is found by hash, with a block number not below the
    entry's, and the events listed for that hash include its log index. *)
Theorem stored_entries_can_be_read_back
    (l : list (string * observation)) (s : run_state)
    (p : string * observation)
    (Hpk : pk_consistent (db s))
    (Hin : p ∈ l)
    (Hwf : well_formed R address (fst p) (snd p) = true) :
  (exists t,
     resolve_transaction_by_hash (db (process_sequence R address s l))
       (transactionHash (entry (snd p))) = Some t
     /\ transaction_hash t = transactionHash (entry (snd p))
     /\ blockNumber (entry (snd p)) <= block_number t)
  /\ exists row,
       row ∈ resolve_events_by_transaction (db (process_sequence R address s l))
               (transactionHash (entry (snd p)))
       /\ log_index row = logIndex (entry (snd p)).
Proof.
  rewrite process_sequence_db.
  pose proof (pk_consistent_db_sequence R address l (db s) Hpk) as Hpk'.
  destruct (db_sequence_ingested R address l (db s) p Hpk Hin Hwf)
    as (Hkey & t & Ht & Hb).
  split.
  - exists t. split; [exact Ht|]. split; [exact (Hpk' _ _ Ht)|exact Hb].
  - apply has_event_elem, list_elem_of_In, in_map_iff in Hkey
      as (row & Hk & Hrow).
    injection Hk as Hid Hidx. exists row. split; [|exact Hidx].
    apply resolve_events_by_transaction_elem. split; [|exact Hid].
    now apply list_elem_of_In.
Qed.

Lemma db_sequence_transactions_other l h : forall d,
  pk_consistent d ->
  (forall p, p ∈ l -> transactionHash (entry (snd p)) <> h) ->
  transactions (db_sequence R address d l) !! h = transactions d !! h.
Proof.
  induction l as [|q l IH]; intros d Hpk Hne; [reflexivity|].
  simpl. rewrite IH.
  - destruct (db_after_transactions R address (fst q) (snd q) d Hpk)
      as [-> | ->]; [reflexivity|].
    apply observe_block_lookup_ne. apply Hne. now left.
  - now apply pk_consistent_db_after.
  - intros p Hp. apply Hne. now right.
Qed.

Lemma stored_row_transaction l d row :
  pk_consistent d ->
  row ∈ stored_rows (outcomes R address d l) ->
  exists p, p ∈ l /\ transaction_id row = transactionHash (entry (snd p)).
Proof.
  intros Hpk Hrow.
  destruct (stored_rows_origin R address l d row Hpk Hrow)
    as (p & d' & Hp & Hpk' & Hout).
  apply entry_outcome_stored in Hout as (_ & _ & Hr).
  destruct (entry_row_fields R address _ _ _ row Hr) as (a & _ & Hid & _).
  exists p. split; [exact Hp|].
  now rewrite Hid, (transaction_seen_hash (snd p) d' Hpk').
Qed.

(** X18. Entries leave alone every transaction whose hash none of them
    carries: the lookup by hash and the list of events for it answer as
    before. *)
Theorem a_run_touches_only_its_transactions
    (l : list (string * observation)) (s : run_state) (h : string)
    (Hpk : pk_consistent (db s))
    (Hother : forall p, p ∈ l -> transactionHash (entry (snd p)) <> h) :
  resolve_transaction_by_hash (db (process_sequence R address s l)) h
  = resolve_transaction_by_hash (db s) h
  /\ resolve_events_by_transaction (db (process_sequence R address s l)) h
     = resolve_events_by_transaction (db s) h.
Proof.
  rewrite process_sequence_db. split.
  - now apply db_sequence_transactions_other.
  - unfold resolve_events_by_transaction. f_equal.
    rewrite db_sequence_events, filter_app.
    assert (filter (fun e => transaction_id e = h)
              (stored_rows (outcomes R address (db s) l)) = []) as ->.
    { apply elem_of_nil_inv. intros row Hin.
      apply list_elem_of_filter in Hin as [Hid Hrow].
      destruct (stored_row_transaction l (db s) row Hpk Hrow) as (p & Hp & E).
      apply (Hother p Hp). congruence. }
    apply app_nil_r.
Qed.

End Reads.

(** ** Runs of the task *)

(** A run that ends with a summary has passed the set-up and is the sequence
    of the entries it fetched. *)
Lemma poll_contract_events_summary (R : runtime) (S : settings) (N : node)
    (start_block_offset : Z) (d : database) (processed flagged : Z) :
  fst (poll_contract_events R S N start_block_offset d)
  = Summary processed flagged ->
  exists address latest,
    is_connected N = Ok true
    /\ load_contract N = Ok address
    /\ block_number_now N = Ok latest
    /\ processed
       = processed_count
           (process_sequence R address (initial_state d)
              (run_entries N (Z.max 0 (latest - start_block_offset)) latest))
    /\ flagged
       = fraud_detected_count
           (process_sequence R address (initial_state d)
              (run_entries N (Z.max 0 (latest - start_block_offset)) latest))
    /\ snd (poll_contract_events R S N start_block_offset d)
       = db (process_sequence R address (initial_state d)
               (run_entries N (Z.max 0 (latest - start_block_offset)) latest)).
Proof.
  unfold poll_contract_events.
  destruct (not_set _ || not_set _); [discriminate|].
  destruct (is_connected N) as [[|]|]; try discriminate.
  destruct (load_contract N) as [address|]; [|discriminate].
  destruct (block_number_now N) as [latest|]; [|discriminate].
  simpl. rewrite !poll_event_type_sequence, <- process_sequence_app.
  fold (run_entries N (Z.max 0 (latest - start_block_offset)) latest).
  intros [= <- <-]. exists address, latest. repeat split; reflexivity.
Qed.

Lemma poll_contract_events_fatal (R : runtime) (S : settings) (N : node)
    (start_block_offset : Z) (d : database) :
  (exists processed flagged,
     fst (poll_contract_events R S N start_block_offset d)
     = Summary processed flagged)
  \/ snd (poll_contract_events R S N start_block_offset d) = d.
Proof.
  unfold poll_contract_events.
  destruct (not_set _ || not_set _); [now right|].
  destruct (is_connected N) as [[|]|]; try now right.
  destruct (load_contract N) as [address|]; [|now right].
  destruct (block_number_now N) as [latest|]; [|now right].
  left. eauto.
Qed.

(** X8. A run that does not end with a summary leaves the database as it was. *)
Theorem a_fatal_run_writes_nothing
    (R : runtime) (S : settings) (N : node) (start_block_offset : Z)
    (d : database)
    (Hfatal : forall processed flagged,
        fst (poll_contract_events R S N start_block_offset d)
        <> Summary processed flagged) :
  snd (poll_contract_events R S N start_block_offset d) = d.
Proof.
  destruct (poll_contract_events_fatal R S N start_block_offset d)
    as [(p & f & H) | H]; [|exact H].
  now destruct (Hfatal p f).
Qed.

(** X9. A run only appends to the table of events; the inserted count of its
    summary is the number of rows appended, and the flagged count is at least
    the number of appended rows with a true verdict. *)
Theorem the_summary_counts_the_rows_added
    (R : runtime) (S : settings) (N : node) (start_block_offset : Z)
    (d : database) (processed flagged : Z)
    (Hsummary : fst (poll_contract_events R S N start_block_offset d)
                = Summary processed flagged) :
  exists added,
    events (snd (poll_contract_events R S N start_block_offset d))
    = (events d ++ added)%list
    /\ processed = Z.of_nat (length added)
    /\ count_flagged_rows added <= flagged.
Proof.
  destruct (poll_contract_events_summary R S N start_block_offset d _ _ Hsummary)
    as (address & latest & _ & _ & _ & -> & -> & ->).
  set (l := run_entries N _ latest).
  exists (stored_rows (outcomes R address d l)).
  rewrite process_sequence_db, process_sequence_processed_count. simpl.
  split; [apply db_sequence_events|]. split.
  - now rewrite count_of_is_stored.
  - destruct (process_sequence_fraud_detected_count R address l (initial_state d))
      as (extra & Hextra & _ & ->).
    simpl. rewrite count_of_is_flagged. lia.
Qed.

(** X10. If no two stored events share (transaction, log index) before a run,
    none do after it. *)
Theorem a_run_keeps_unique_together
    (R : runtime) (S : settings) (N : node) (start_block_offset : Z)
    (d : database)
    (Hunique : unique_together d) :
  unique_together (snd (poll_contract_events R S N start_block_offset d)).
Proof.
  destruct (poll_contract_events_sequence R S N start_block_offset d)
    as [-> | (address & l & ->)]; [exact Hunique|].
  simpl. rewrite process_sequence_db. now apply db_sequence_unique_together.
Qed.

(** X11. If every event row points to a stored transaction before a run, every
    one does after it, the rows under their own hash. *)
Theorem a_run_keeps_the_foreign_keys
    (R : runtime) (S : settings) (N : node) (start_block_offset : Z)
    (d : database)
    (Hpk : pk_consistent d)
    (Hfk : foreign_keys_ok d) :
  pk_consistent (snd (poll_contract_events R S N start_block_offset d))
  /\ foreign_keys_ok (snd (poll_contract_events R S N start_block_offset d)).
Proof.
  destruct (poll_contract_events_sequence R S N start_block_offset d)
    as [-> | (address & l & ->)]; [auto|].
  simpl. rewrite process_sequence_db. split.
  - now apply pk_consistent_db_sequence.
  - now apply db_sequence_foreign_keys.
Qed.

(** X12. In a consistent store whose transaction hashes all have the form
    that [validate_transaction_hash] lets through ([0x] and 64 hexadecimal
    digits, with at most one newline after them), a run adds no transaction
    with a hash of another form: a transaction made for an entry outlives
    the entry's atomic block only when the entry's hash passed the
    validator. *)
Theorem a_run_stores_only_validated_hashes
    (R : runtime) (S : settings) (N : node) (start_block_offset : Z)
    (d : database)
    (Hpk : pk_consistent d)
    (Hfk : foreign_keys_ok d)
    (Hhashes : hashes_validated d) :
  hashes_validated (snd (poll_contract_events R S N start_block_offset d)).
Proof.
  destruct (poll_contract_events_sequence R S N start_block_offset d)
    as [-> | (address & l & ->)]; [exact Hhashes|].
  simpl. rewrite process_sequence_db. now apply db_sequence_hashes.
Qed.

(** X13. In a consistent store without a negative block number, a run leaves
    no negative block number: a stored number is only ever raised, and a new
    transaction outlives its entry's atomic block only when the entry's
    block number passed [validate_block_number]. *)
Theorem a_run_keeps_block_numbers_nonnegative
    (R : runtime) (S : settings) (N : node) (start_block_offset : Z)
    (d : database)
    (Hpk : pk_consistent d)
    (Hfk : foreign_keys_ok d)
    (Hblocks : block_numbers_nonnegative d) :
  block_numbers_nonnegative
    (snd (poll_contract_events R S N start_block_offset d)).
Proof.
  destruct (poll_contract_events_sequence R S N start_block_offset d)
    as [-> | (address & l & ->)]; [exact Hblocks|].
  simpl. rewrite process_sequence_db. now apply db_sequence_block_numbers.
Qed.

Lemma run_entries_elem (N : node) (from_block to_block : Z)
    (p : string * observation) :
  p ∈ run_entries N from_block to_block ->
  fst p ∈ event_names_to_poll
  /\ exists l, get_all_entries N (fst p) from_block to_block = Entries l
               /\ snd p ∈ l.
Proof.
  assert (Hone : forall name,
             p ∈ fetched_entries N from_block to_block name ->
             fst p = name
             /\ exists l, get_all_entries N name from_block to_block = Entries l
                          /\ snd p ∈ l).
  { intros name. unfold fetched_entries.
    destruct (get_all_entries N name from_block to_block) as [| |l];
      try (intros H; now apply not_elem_of_nil in H).
    intros H. apply list_elem_of_In, in_map_iff in H as (o & <- & Ho).
    split; [reflexivity|]. exists l. split; [reflexivity|].
    now apply list_elem_of_In. }
  unfold run_entries, event_names_to_poll. intros H.
  apply elem_of_app in H as [H|H]; apply Hone in H as (Hn & l & Hl & Hp).
  - rewrite Hn. split; [left|eauto].
  - rewrite Hn. split; [right; left|eauto].
Qed.

(** X14. Every row that a run adds comes from an entry the node returned for
    one of the two event names: it carries that name, the contract address,
    the entry's hash and log index, the verdict of the fraud check on its
    decoded arguments and their JSON payload; its hash passes the validator. *)
Theorem every_stored_row_comes_from_a_fetched_entry
    (R : runtime) (S : settings) (N : node) (start_block_offset : Z)
    (d : database) (processed flagged : Z) (address : string) (latest : Z)
    (row : ContractEvent)
    (Hpk : pk_consistent d)
    (Hsummary : fst (poll_contract_events R S N start_block_offset d)
                = Summary processed flagged)
    (Hcontract : load_contract N = Ok address)
    (Hlatest : block_number_now N = Ok latest)
    (Hrow : row ∈ events (snd (poll_contract_events R S N start_block_offset d))) :
  row ∈ events d
  \/ exists name l o a,
       name ∈ event_names_to_poll
       /\ get_all_entries N name (Z.max 0 (latest - start_block_offset)) latest
          = Entries l
       /\ o ∈ l
       /\ decoded (entry o) = Ok a
       /\ event_name row = name
       /\ contract_address row = address
       /\ transaction_id row = transactionHash (entry o)
       /\ log_index row = logIndex (entry o)
       /\ is_fraudulent row = detect_fraud name (entry o) a
       /\ data row = json_dumps R a
       /\ validate_transaction_hash (transaction_id row) = Ok tt.
Proof.
  destruct (poll_contract_events_summary R S N start_block_offset d _ _ Hsummary)
    as (address' & latest' & _ & Hc & Hl & _ & _ & Hdb).
  assert (address' = address) as -> by congruence.
  assert (latest' = latest) as -> by congruence.
  rewrite Hdb, process_sequence_db, db_sequence_events in Hrow.
  apply elem_of_app in Hrow as [Hrow|Hrow]; [now left|right].
  destruct (stored_rows_origin R address _ _ row Hpk Hrow)
    as (p & d' & Hp & Hpk' & Hout).
  apply run_entries_elem in Hp as (Hname & l & Hfetch & Ho).
  apply entry_outcome_stored in Hout as (_ & _ & Hr).
  destruct (entry_row_fields R address _ _ _ row Hr)
    as (a & Ha & Hid & Hidx & Hn & Hca & _ & Hfr & Hdata).
  rewrite (transaction_seen_hash (snd p) d' Hpk') in Hid.
  exists (fst p), l, (snd p), a. repeat split; auto.
  rewrite Hid. eapply entry_row_validated; eauto.
Qed.

(** X19. After a run whose entries were all acceptable, a second run that gets
    entries among the same ones (any clock, any window) inserts nothing, flags
    nothing and leaves the database as the first run left it. *)
Theorem polling_again_inserts_nothing
    (R : runtime) (S : settings) (N N' : node)
    (start_block_offset start_block_offset' : Z) (d : database)
    (processed flagged : Z) (address : string) (latest latest' : Z)
    (Hpk : pk_consistent d)
    (Hsummary : fst (poll_contract_events R S N start_block_offset d)
                = Summary processed flagged)
    (Hcontract : load_contract N = Ok address)
    (Hlatest : block_number_now N = Ok latest)
    (Hwf : Forall (fun p => well_formed R address (fst p) (snd p) = true)
             (run_entries N (Z.max 0 (latest - start_block_offset)) latest))
    (Hconnected' : is_connected N' = Ok true)
    (Hcontract' : load_contract N' = Ok address)
    (Hlatest' : block_number_now N' = Ok latest')
    (Hsame :
       Forall (fun p2 =>
                 exists p1,
                   p1 ∈ run_entries N (Z.max 0 (latest - start_block_offset))
                          latest
                   /\ entry (snd p2) = entry (snd p1))
         (run_entries N' (Z.max 0 (latest' - start_block_offset')) latest')) :
  poll_contract_events R S N' start_block_offset'
    (snd (poll_contract_events R S N start_block_offset d))
  = (Summary 0 0, snd (poll_contract_events R S N start_block_offset d)).
Proof.
  destruct (poll_contract_events_summary R S N start_block_offset d _ _ Hsummary)
    as (address0 & latest0 & _ & Hc & Hl & _ & _ & Hdb).
  assert (address0 = address) as -> by congruence.
  assert (latest0 = latest) as -> by congruence.
  assert (Hsettings : not_set (TRANSACTION_CONTRACT_ADDRESS S)
                      || not_set (TRANSACTION_CONTRACT_ABI_PATH S) = false).
  { unfold poll_contract_events in Hsummary.
    destruct (not_set _ || not_set _); [discriminate|reflexivity]. }
  set (d1 := snd (poll_contract_events R S N start_block_offset d)) in *.
  unfold poll_contract_events at 1.
  rewrite Hsettings, Hconnected', Hcontract', Hlatest'. simpl.
  rewrite !poll_event_type_sequence, <- process_sequence_app.
  fold (run_entries N' (Z.max 0 (latest' - start_block_offset')) latest').
  rewrite (processing_again_changes_nothing R address
             (run_entries N (Z.max 0 (latest - start_block_offset)) latest)
             (run_entries N' (Z.max 0 (latest' - start_block_offset')) latest')
             (initial_state d) (initial_state d1) Hpk Hwf Hdb Hsame).
  reflexivity.
Qed.

(** ** The further properties at sample inputs *)

Lemma validators_accept_hex_literals_witness :
  validate_transaction_hash sample_address = Raise ValidationError.
Proof.
  apply (proj2 (proj2 validators_accept_hex_literals) sample_address).
  reflexivity.
Defined.

Lemma detect_fraud_only_polled_types_witness :
  transfer_args (10 ^ 24 + 1) <> ∅.
Proof.
  apply (detect_fraud_only_polled_types "TransactionSubmitted"
           (sample_log (transfer_args (10 ^ 24 + 1)))
           (transfer_args (10 ^ 24 + 1))).
  vm_compute. reflexivity.
Defined.

Lemma ingest_is_atomic_witness :
  db (snd (ingest sample_runtime sample_address "TransactionSubmitted"
             undecodable_entry (initial_state empty_db))) = empty_db.
Proof.
  apply (ingest_is_atomic sample_runtime sample_address "TransactionSubmitted"
           undecodable_entry (initial_state empty_db) DecodeError).
  vm_compute. reflexivity.
Defined.

Lemma pk_consistent_after_first_transfer : pk_consistent (db after_first_transfer).
Proof.
  unfold after_first_transfer. rewrite process_entry_db.
  apply pk_consistent_db_after. exact pk_consistent_empty_db.
Qed.

Lemma duplicate_is_skipped_before_decoding_witness :
  fst (ingest sample_runtime sample_address "TransactionSubmitted"
         late_duplicate after_first_transfer) = Ok DuplicateSkipped
  /\ stored_block
       (db (snd (ingest sample_runtime sample_address "TransactionSubmitted"
                   late_duplicate after_first_transfer))) hash_a
     = Some 105.
Proof.
  destruct (duplicate_is_skipped_before_decoding sample_runtime sample_address
              "TransactionSubmitted" late_duplicate after_first_transfer
              {| transaction_hash := hash_a; block_number := 100;
                 created_at := 1700000000 |})
    as (H1 & _ & H3 & _).
  - exact pk_consistent_after_first_transfer.
  - vm_compute. reflexivity.
  - vm_compute. reflexivity.
  - right. reflexivity.
  - split; [exact H1|exact H3].
Defined.

Lemma clock_only_sets_the_timestamp_witness :
  is_stored
    (entry_outcome sample_runtime sample_address "TransactionSubmitted"
       {| entry := entry (transfer_entry 100 0); clock := 1700000900;
          node_timestamp := None |} empty_db) = true.
Proof.
  rewrite (clock_only_sets_the_timestamp sample_runtime sample_address
             "TransactionSubmitted" (transfer_entry 100 0)
             {| entry := entry (transfer_entry 100 0); clock := 1700000900;
                node_timestamp := None |} empty_db).
  - vm_compute. reflexivity.
  - exact pk_consistent_empty_db.
  - reflexivity.
Defined.

Lemma typed_projections_follow_event_type_witness :
  exists row kw,
    entry_row sample_runtime sample_address "TransactionSubmitted"
      (transfer_entry 100 0) (first_seen (transfer_entry 100 0)) = Ok row
    /\ kw_event_amount kw = Some (10 ^ 24 + 1)
    /\ event_amount row <> None
    /\ event_from_address row = Some sample_address
    /\ event_message row = None.
Proof.
  destruct (entry_row sample_runtime sample_address "TransactionSubmitted"
              (transfer_entry 100 0) (first_seen (transfer_entry 100 0)))
    as [row|e] eqn:E; [|vm_compute in E; discriminate].
  destruct (typed_projections_follow_event_type sample_runtime sample_address
              "TransactionSubmitted" (transfer_entry 100 0)
              (first_seen (transfer_entry 100 0)) row
              (transfer_args (10 ^ 24 + 1)) E eq_refl)
    as (kw & _ & Hts & _ & _).
  destruct (Hts eq_refl) as (Hf & _ & _ & _ & Hm & _ & _ & Hsome).
  destruct Hsome as (n & Hn & Hkw & Hrow); [vm_compute; discriminate|].
  vm_compute in Hn. injection Hn as <-.
  exists row, kw. repeat split; assumption.
Defined.

Lemma polling_again_inserts_nothing_witness :
  fst (poll_contract_events sample_runtime sample_settings
         (sample_node both_types) 100
         (snd (poll_contract_events sample_runtime sample_settings
                 (sample_node both_types) 100 empty_db)))
  = Summary 0 0.
Proof.
  rewrite (polling_again_inserts_nothing sample_runtime sample_settings
             (sample_node both_types) (sample_node both_types) 100 100
             empty_db 2 1 sample_address 120 120).
  - reflexivity.
  - exact pk_consistent_empty_db.
  - vm_compute. reflexivity.
  - reflexivity.
  - reflexivity.
  - repeat constructor.
  - reflexivity.
  - reflexivity.
  - reflexivity.
  - apply Forall_forall. intros p Hp. exists p. split; [exact Hp|reflexivity].
Defined.

Lemma a_fatal_run_writes_nothing_witness :
  snd (poll_contract_events sample_runtime unconfigured_settings
         (sample_node both_types) 100 empty_db) = empty_db.
Proof.
  apply (a_fatal_run_writes_nothing sample_runtime unconfigured_settings
           (sample_node both_types) 100 empty_db).
  intros processed flagged. vm_compute. discriminate.
Defined.

Lemma the_summary_counts_the_rows_added_witness :
  exists added,
    events (snd (poll_contract_events sample_runtime sample_settings
                   (sample_node both_types) 100 empty_db))
    = (events empty_db ++ added)%list
    /\ 2 = Z.of_nat (length added)
    /\ count_flagged_rows added <= 1.
Proof.
  apply (the_summary_counts_the_rows_added sample_runtime sample_settings
           (sample_node both_types) 100 empty_db 2 1).
  vm_compute. reflexivity.
Defined.

Lemma a_run_keeps_unique_together_witness :
  unique_together
    (snd (poll_contract_events sample_runtime sample_settings
            (sample_node both_types) 100 empty_db)).
Proof.
  apply (a_run_keeps_unique_together sample_runtime sample_settings
           (sample_node both_types) 100 empty_db).
  apply NoDup_nil_2.
Defined.

Lemma a_run_keeps_the_foreign_keys_witness :
  foreign_keys_ok
    (snd (poll_contract_events sample_runtime sample_settings
            (sample_node both_types) 100 empty_db)).
Proof.
  apply (a_run_keeps_the_foreign_keys sample_runtime sample_settings
           (sample_node both_types) 100 empty_db).
  - exact pk_consistent_empty_db.
  - apply Forall_nil_2.
Defined.

Lemma a_run_stores_only_validated_hashes_witness :
  hashes_validated
    (snd (poll_contract_events sample_runtime sample_settings
            (sample_node both_types) 100 empty_db)).
Proof.
  apply (a_run_stores_only_validated_hashes sample_runtime sample_settings
           (sample_node both_types) 100 empty_db).
  - exact pk_consistent_empty_db.
  - apply Forall_nil_2.
  - apply map_Forall_empty.
Defined.

Lemma a_run_keeps_block_numbers_nonnegative_witness :
  block_numbers_nonnegative
    (snd (poll_contract_events sample_runtime sample_settings
            (sample_node both_types) 100 empty_db)).
Proof.
  apply (a_run_keeps_block_numbers_nonnegative sample_runtime sample_settings
           (sample_node both_types) 100 empty_db).
  - exact pk_consistent_empty_db.
  - apply Forall_nil_2.
  - apply map_Forall_empty.
Defined.

Lemma every_stored_row_comes_from_a_fetched_entry_witness :
  exists row,
    row ∈ events (snd (poll_contract_events sample_runtime sample_settings
                         (sample_node both_types) 100 empty_db))
    /\ contract_address row = sample_address.
Proof.
  destruct (events (snd (poll_contract_events sample_runtime sample_settings
                           (sample_node both_types) 100 empty_db)))
    as [|row rest] eqn:E; [vm_compute in E; discriminate|].
  exists row. split; [left|].
  destruct (every_stored_row_comes_from_a_fetched_entry sample_runtime
              sample_settings (sample_node both_types) 100 empty_db 2 1
              sample_address 120 row)
    as [Hold | (name & l & o & a & _ & _ & _ & _ & _ & Haddr & _)].
  - exact pk_consistent_empty_db.
  - vm_compute. reflexivity.
  - reflexivity.
  - reflexivity.
  - rewrite E. left.
  - now apply not_elem_of_nil in Hold.
  - exact Haddr.
Defined.

Lemma arrival_order_does_not_change_the_events_witness :
  Permutation
    (events (db (process_sequence sample_runtime sample_address
                   (initial_state empty_db)
                   [("ContractEvent", hello_entry);
                    ("TransactionSubmitted", transfer_entry 100 0)])))
    (events (db (process_sequence sample_runtime sample_address
                   (initial_state empty_db)
                   [("TransactionSubmitted", transfer_entry 100 0);
                    ("ContractEvent", hello_entry)]))).
Proof.
  destruct (arrival_order_does_not_change_the_events sample_runtime
              sample_address
              [("TransactionSubmitted", transfer_entry 100 0);
               ("ContractEvent", hello_entry)]
              [("ContractEvent", hello_entry);
               ("TransactionSubmitted", transfer_entry 100 0)]
              (initial_state empty_db))
    as (_ & _ & H & _).
  - exact pk_consistent_empty_db.
  - repeat constructor.
  - refine (bool_decide_unpack _ _). vm_compute. exact I.
  - repeat constructor.
  - apply perm_swap.
  - exact H.
Defined.

Lemma events_of_a_transaction_come_in_one_order_witness :
  resolve_events_by_transaction
    (snd (poll_contract_events sample_runtime sample_settings
            (sample_node both_types) 100 empty_db)) hash_a
  = resolve_events_by_transaction
      (snd (poll_contract_events sample_runtime sample_settings
              (sample_node both_types) 100 empty_db)) hash_a.
Proof.
  destruct (events_of_a_transaction_come_in_one_order
              (snd (poll_contract_events sample_runtime sample_settings
                      (sample_node both_types) 100 empty_db)) hash_a)
    as (_ & Hsorted & Hone).
  apply Hone.
  - refine (bool_decide_unpack _ _). vm_compute. exact I.
  - unfold resolve_events_by_transaction. apply merge_sort_Permutation.
  - exact Hsorted.
Defined.

Lemma stored_entries_can_be_read_back_witness :
  exists row,
    row ∈ resolve_events_by_transaction
            (db (process_sequence sample_runtime sample_address
                   (initial_state empty_db)
                   [("TransactionSubmitted", transfer_entry 100 0);
                    ("ContractEvent", hello_entry)])) hash_a
    /\ log_index row = 1.
Proof.
  destruct (stored_entries_can_be_read_back sample_runtime sample_address
              [("TransactionSubmitted", transfer_entry 100 0);
               ("ContractEvent", hello_entry)]
              (initial_state empty_db) ("ContractEvent", hello_entry))
    as (_ & H).
  - exact pk_consistent_empty_db.
  - right. left.
  - vm_compute. reflexivity.
  - exact H.
Defined.

Lemma a_run_touches_only_its_transactions_witness :
  resolve_transaction_by_hash
    (db (process_sequence sample_runtime sample_address
           (initial_state empty_db)
           [("TransactionSubmitted", transfer_entry 100 0)]))
    "0xbbbbbbbbbbbbbbbbbbbbbbbbbbbbbbbbbbbbbbbbbbbbbbbbbbbbbbbbbbbbbbbb"
  = None.
Proof.
  destruct (a_run_touches_only_its_transactions sample_runtime sample_address
              [("TransactionSubmitted", transfer_entry 100 0)]
              (initial_state empty_db)
              "0xbbbbbbbbbbbbbbbbbbbbbbbbbbbbbbbbbbbbbbbbbbbbbbbbbbbbbbbbbbbbbbbb")
    as (H & _).
  - exact pk_consistent_empty_db.
  - intros p Hp. apply list_elem_of_singleton in Hp. subst p.
    vm_compute. discriminate.
  - exact H.
Defined.
